(** * A shallow embedding of the bring-back-BOLO core engine

    This development models [src/src/bolo_engine.py]: the terrain table, the
    tile map, the entity classes ([Tank], [Shell], [Mine], [Pillbox], [Base])
    and the [GameState] frame pipeline (pending-spawn buffer, entity updates,
    the collision pass and dead-entity removal).

    Conventions of the embedding:
    - Python [int] is [Z]; Python [float] is Rocq's primitive binary64
      [float] (PrimFloat), with the same IEEE-754 operations.  Positions
      created from Python ints are exactly representable, so modelling them
      as floats changes no comparison.
    - The libm functions [math.cos], [math.sin], [math.atan2],
      [math.radians] and [math.degrees] are the methods of a type class
      [Libm]; the code using them lives in Sections that take an instance
      as a Context, so the results hold for any libm, the real one
      included.  A Taylor-series instance serves the concrete scenarios.
    - Python objects live in a heap ([list Entity], addressed by [nat]);
      [GameState.entities] and [GameState.pending_entities] are lists of
      addresses, so the aliasing of the Python lists is kept.
    - Exceptions (an [IndexError] of a ragged tile array, [int()] of a
      non-finite float, a dangling reference) are [None] of an error monad.
    - The collision pass writes a ghost log of the calls it makes
      ([take_damage], [resupply_tank], [capture]); the log has no
      counterpart in the Python state and is only read by the theorems. *)

From Stdlib Require Import Floats ZArith Lia.
From stdpp Require Import base list strings.

Local Set Warnings "-inexact-float".
Local Open Scope Z_scope.

(* ================================================================= *)
(** ** Section 1: constants and enumerations *)

Module Config.
Definition WINDOW_WIDTH : Z := 1024.
Definition WINDOW_HEIGHT : Z := 768.
Definition TILE_SIZE : Z := 16.
Definition MAP_WIDTH : Z := 64.
Definition MAP_HEIGHT : Z := 48.
Definition TANK_MAX_ARMOR : Z := 8.
Definition TANK_MAX_SHELLS : Z := 40.
Definition TANK_MAX_MINES : Z := 40.
Definition TANK_MAX_WOOD : Z := 40.
Definition TANK_BASE_SPEED : float := 2.0.
Definition TANK_ROTATION_SPEED : float := 4.0.
Definition TANK_SIZE : Z := 12.
Definition SHELL_DAMAGE : Z := 1.
Definition SHELL_SPEED : float := 6.0.
Definition SHELL_LIFETIME : Z := 90.
Definition MINE_DAMAGE : Z := 4.
Definition PILLBOX_MAX_HEALTH : Z := 16.
Definition PILLBOX_FIRE_RATE : Z := 30.
Definition PILLBOX_RANGE : float := 150.0.
Definition BASE_RESUPPLY_RATE : Z := 1200.
End Config.

Inductive TileType :=
| DEEP_WATER | RIVER | SWAMP | CRATER | ROAD | FOREST
| RUBBLE | GRASS | WALL | DAMAGED_WALL | BOAT.

Scheme Equality for TileType.

Definition all_tile_types : list TileType :=
  [DEEP_WATER; RIVER; SWAMP; CRATER; ROAD; FOREST;
   RUBBLE; GRASS; WALL; DAMAGED_WALL; BOAT].

Record TerrainInfo := {
  name : string;
  speed_multiplier : float;
  passable : bool;
  blocks_shots : bool;
  destructible : bool;
  color : Z * Z * Z
}.

(** [TERRAIN_DATA] has a key for every [TileType], so the dictionary and
    every [TERRAIN_DATA.get(tile, TERRAIN_DATA[GRASS])] is this total
    function. *)
Definition TERRAIN_DATA (k : TileType) : TerrainInfo :=
  match k with
  | DEEP_WATER => Build_TerrainInfo "Deep Water" 0.0 false false false (20, 60, 120)
  | RIVER => Build_TerrainInfo "River" 0.3 true false false (40, 100, 160)
  | SWAMP => Build_TerrainInfo "Swamp" 0.25 true false true (60, 80, 40)
  | CRATER => Build_TerrainInfo "Crater" 0.5 true false false (80, 70, 50)
  | ROAD => Build_TerrainInfo "Road" 1.2 true false false (60, 60, 60)
  | FOREST => Build_TerrainInfo "Forest" 0.4 true false true (20, 80, 20)
  | RUBBLE => Build_TerrainInfo "Rubble" 0.6 true false false (90, 85, 75)
  | GRASS => Build_TerrainInfo "Grass" 0.8 true false false (50, 120, 50)
  | WALL => Build_TerrainInfo "Wall" 0.0 false true true (100, 100, 100)
  | DAMAGED_WALL => Build_TerrainInfo "Damaged Wall" 0.0 false true true (120, 110, 100)
  | BOAT => Build_TerrainInfo "Boat" 0.8 true false true (120, 80, 40)
  end.

Inductive Team := NEUTRAL | TEAM_1 | TEAM_2 | TEAM_3 | TEAM_4.

Scheme Equality for Team.

(* ================================================================= *)
(** ** Python numeric helpers *)

(** [float(z)] for the small ints the engine mixes into float arithmetic. *)
Definition float_of_Z (z : Z) : float :=
  if z <? 0 then PrimFloat.opp (PrimFloat.of_uint63 (Uint63.of_Z (- z)))
  else PrimFloat.of_uint63 (Uint63.of_Z z).

(** [int(v // d)] for a float [v] and a positive int [d]: the exact floor
    of [v / d]; [int()] of an infinity or a NaN raises. *)
Definition int_floordiv (v : float) (d : Z) : option Z :=
  match Prim2SF v with
  | S754_zero _ => Some 0
  | S754_finite s m e =>
      let num := if s then Z.neg m else Z.pos m in
      if 0 <=? e then Some (Z.div (num * 2 ^ e) d)
      else Some (Z.div num (d * 2 ^ (- e)))
  | _ => None
  end.

(** Python's [a < b], [a <= b] on floats. *)
Definition flt (a b : float) : bool := PrimFloat.ltb a b.
Definition fle (a b : float) : bool := PrimFloat.leb a b.

(* ================================================================= *)
(** ** Section 3: the map system *)

Record GameMap := {
  width : Z;
  height : Z;
  tiles : list (list TileType);
  _dirty : bool
}.

Definition pixel_width (g : GameMap) : Z := width g * Config.TILE_SIZE.
Definition pixel_height (g : GameMap) : Z := height g * Config.TILE_SIZE.

Definition in_bounds (g : GameMap) (x y : Z) : bool :=
  (0 <=? x) && (x <? width g) && (0 <=? y) && (y <? height g).

(** [self.tiles[y][x]]; [None] is the [IndexError] of a ragged array. *)
Definition tiles_at (g : GameMap) (x y : Z) : option TileType :=
  row ← tiles g !! Z.to_nat y; row !! Z.to_nat x.

Definition get_tile (g : GameMap) (x y : Z) : option TileType :=
  if in_bounds g x y then tiles_at g x y else Some WALL.

(** [self.tiles[y][x] = tile_type]: the row and the cell must exist. *)
Definition tiles_store (ts : list (list TileType)) (x y : Z) (k : TileType)
  : option (list (list TileType)) :=
  row ← ts !! Z.to_nat y;
  _ ← row !! Z.to_nat x;
  Some (<[Z.to_nat y := <[Z.to_nat x := k]> row]> ts).

Definition set_tile (g : GameMap) (x y : Z) (k : TileType) : option GameMap :=
  if in_bounds g x y then
    ts ← tiles_store (tiles g) x y k;
    Some {| width := width g; height := height g; tiles := ts; _dirty := true |}
  else Some g.

Definition damage_tile (g : GameMap) (x y : Z) : option GameMap :=
  tile ← get_tile g x y;
  match tile with
  | WALL => set_tile g x y DAMAGED_WALL
  | DAMAGED_WALL => set_tile g x y RUBBLE
  | FOREST => set_tile g x y GRASS
  | SWAMP => set_tile g x y CRATER
  | _ => Some g
  end.

(** [GameMap.__init__] builds a [height] x [width] grid; [set_tile] and
    [generate_random] keep its shape. *)
Definition wf_map (g : GameMap) : Prop :=
  length (tiles g) = Z.to_nat (height g) /\
  Forall (fun row => length row = Z.to_nat (width g)) (tiles g).

Definition new_GameMap (w h : Z) : GameMap :=
  {| width := w; height := h;
     tiles := repeat (repeat GRASS (Z.to_nat w)) (Z.to_nat h);
     _dirty := true |}.

(* ================================================================= *)
(** ** Section 2: the entity system *)

(** The libm functions the engine calls. *)
Class Libm := {
  math_cos : float -> float;
  math_sin : float -> float;
  math_atan2 : float -> float -> float;
  math_radians : float -> float;
  math_degrees : float -> float
}.

(** [Entity.__init__]: the class counter [Entity._next_id] gives the id. *)
Definition Position := (float * float)%type.

Module Resources.
Record t := {
  armor : Z;
  shells : Z;
  mines : Z;
  wood : Z
}.

Definition default : t :=
  {| armor := Config.TANK_MAX_ARMOR; shells := Config.TANK_MAX_SHELLS;
     mines := Config.TANK_MAX_MINES; wood := 0 |}.
End Resources.

Module Shell.
Record t := {
  id : Z; x : float; y : float; alive : bool;
  angle : float; team : Team; owner_id : Z;
  speed : float; damage : Z; lifetime : Z; radius : Z
}.

(** [Shell(x, y, angle, team, owner_id)], with the id counter. *)
Definition new (next_id : Z) (x0 y0 angle0 : float) (team0 : Team) (owner : Z)
  : t * Z :=
  ({| id := next_id; x := x0; y := y0; alive := true; angle := angle0;
      team := team0; owner_id := owner; speed := Config.SHELL_SPEED;
      damage := Config.SHELL_DAMAGE; lifetime := Config.SHELL_LIFETIME;
      radius := 3 |}, next_id + 1).

Definition set_pos (s : t) (x0 y0 : float) : t :=
  {| id := id s; x := x0; y := y0; alive := alive s; angle := angle s;
     team := team s; owner_id := owner_id s; speed := speed s;
     damage := damage s; lifetime := lifetime s; radius := radius s |}.

Definition set_lifetime (s : t) (l : Z) : t :=
  {| id := id s; x := x s; y := y s; alive := alive s; angle := angle s;
     team := team s; owner_id := owner_id s; speed := speed s;
     damage := damage s; lifetime := l; radius := radius s |}.

Definition destroy (s : t) : t :=
  {| id := id s; x := x s; y := y s; alive := false; angle := angle s;
     team := team s; owner_id := owner_id s; speed := speed s;
     damage := damage s; lifetime := lifetime s; radius := radius s |}.
End Shell.

Module Mine.
Record t := {
  id : Z; x : float; y : float; alive : bool;
  team : Team; hidden : bool; damage : Z; radius : Z; detection_radius : Z
}.

Definition new (next_id : Z) (x0 y0 : float) (team0 : Team) (hidden0 : bool)
  : t * Z :=
  ({| id := next_id; x := x0; y := y0; alive := true; team := team0;
      hidden := hidden0; damage := Config.MINE_DAMAGE; radius := 6;
      detection_radius := 4 |}, next_id + 1).

Definition destroy (m : t) : t :=
  {| id := id m; x := x m; y := y m; alive := false; team := team m;
     hidden := hidden m; damage := damage m; radius := radius m;
     detection_radius := detection_radius m |}.
End Mine.

Module Tank.
Record t := {
  id : Z; x : float; y : float; alive : bool;
  team : Team; angle : float; resources : Resources.t;
  speed : float; size : Z; is_moving : bool; has_boat : bool;
  lgm_deployed : bool; lgm_position : option Position;
  lgm_respawn_timer : Z; carried_pillboxes : list nat;
  fire_cooldown : Z; fire_rate : Z
}.

Definition new (next_id : Z) (x0 y0 : float) (team0 : Team) : t * Z :=
  ({| id := next_id; x := x0; y := y0; alive := true; team := team0;
      angle := 0.0; resources := Resources.default;
      speed := Config.TANK_BASE_SPEED; size := Config.TANK_SIZE;
      is_moving := false; has_boat := false; lgm_deployed := false;
      lgm_position := None; lgm_respawn_timer := 0; carried_pillboxes := [];
      fire_cooldown := 0; fire_rate := 10 |}, next_id + 1).

(** One constructor call for every field assignment of the methods. *)
Definition mk (tk : t) (x0 y0 : float) (alive0 : bool) (res : Resources.t)
    (moving : bool) (lgm_dep : bool) (lgm_timer cooldown : Z) : t :=
  {| id := id tk; x := x0; y := y0; alive := alive0; team := team tk;
     angle := angle tk; resources := res; speed := speed tk;
     size := size tk; is_moving := moving; has_boat := has_boat tk;
     lgm_deployed := lgm_dep; lgm_position := lgm_position tk;
     lgm_respawn_timer := lgm_timer;
     carried_pillboxes := carried_pillboxes tk;
     fire_cooldown := cooldown; fire_rate := fire_rate tk |}.

Definition set_resources (tk : t) (res : Resources.t) : t :=
  mk tk (x tk) (y tk) (alive tk) res (is_moving tk) (lgm_deployed tk)
     (lgm_respawn_timer tk) (fire_cooldown tk).

Definition destroy (tk : t) : t :=
  mk tk (x tk) (y tk) false (resources tk) (is_moving tk) (lgm_deployed tk)
     (lgm_respawn_timer tk) (fire_cooldown tk).

Definition tile_position (tk : t) : option (Z * Z) :=
  tx ← int_floordiv (x tk) Config.TILE_SIZE;
  ty ← int_floordiv (y tk) Config.TILE_SIZE;
  Some (tx, ty).

(** [Tank.update] *)
Definition update (tk : t) : t :=
  let cd := if 0 <? fire_cooldown tk then fire_cooldown tk - 1
            else fire_cooldown tk in
  if 0 <? lgm_respawn_timer tk then
    let tm := lgm_respawn_timer tk - 1 in
    mk tk (x tk) (y tk) (alive tk) (resources tk) (is_moving tk)
       (if tm =? 0 then false else lgm_deployed tk) tm cd
  else
    mk tk (x tk) (y tk) (alive tk) (resources tk) (is_moving tk)
       (lgm_deployed tk) (lgm_respawn_timer tk) cd.

Section WithLibm.
Context {LM : Libm}.

(** [Tank.fire]: the new shell (if any), the tank, the id counter. *)
Definition fire (tk : t) (next_id : Z) : option Shell.t * t * Z :=
  if (0 <? fire_cooldown tk) || (Resources.shells (resources tk) <=? 0) then
    (None, tk, next_id)
  else
    let r := resources tk in
    let r' := {| Resources.armor := Resources.armor r; Resources.shells := Resources.shells r - 1;
                 Resources.mines := Resources.mines r; Resources.wood := Resources.wood r |} in
    let tk' := mk tk (x tk) (y tk) (alive tk) r' (is_moving tk)
                  (lgm_deployed tk) (lgm_respawn_timer tk) (fire_rate tk) in
    let cannon_length := size tk + 8 in
    let shell_x := (x tk + math_cos (math_radians (angle tk))
                             * float_of_Z cannon_length)%float in
    let shell_y := (y tk + math_sin (math_radians (angle tk))
                             * float_of_Z cannon_length)%float in
    let '(sh, n') := Shell.new next_id shell_x shell_y (angle tk) (team tk) (id tk) in
    (Some sh, tk', n').

(** [Tank._get_terrain_speed] *)
Definition _get_terrain_speed (g : GameMap) (tk : t) : option float :=
  '(tx, ty) ← tile_position tk;
  tile ← get_tile g tx ty;
  let terrain := TERRAIN_DATA tile in
  if (TileType_beq tile DEEP_WATER || TileType_beq tile RIVER)
     && negb (has_boat tk) then
    if TileType_beq tile DEEP_WATER then Some 0.0%float
    else Some (speed_multiplier terrain)
  else Some (speed_multiplier terrain).

(** [Tank._can_move_to] *)
Definition _can_move_to (g : GameMap) (tk : t) (x0 y0 : float) : option bool :=
  if flt x0 (float_of_Z (size tk))
     || flt (float_of_Z (pixel_width g - size tk)) x0 then Some false
  else if flt y0 (float_of_Z (size tk))
     || flt (float_of_Z (pixel_height g - size tk)) y0 then Some false
  else
    tile_x ← int_floordiv x0 Config.TILE_SIZE;
    tile_y ← int_floordiv y0 Config.TILE_SIZE;
    tile ← get_tile g tile_x tile_y;
    let terrain := TERRAIN_DATA tile in
    if negb (passable terrain) then
      if TileType_beq tile DEEP_WATER && has_boat tk then Some true
      else Some false
    else Some true.

Definition moved (tk : t) (x0 y0 : float) : t :=
  mk tk x0 y0 (alive tk) (resources tk) true (lgm_deployed tk)
     (lgm_respawn_timer tk) (fire_cooldown tk).

(** [Tank.move_forward] *)
Definition move_forward (g : GameMap) (tk : t) : option t :=
  terrain_speed ← _get_terrain_speed g tk;
  if fle terrain_speed 0.0%float then Some tk
  else
    let dx := (math_cos (math_radians (angle tk)) * speed tk * terrain_speed)%float in
    let dy := (math_sin (math_radians (angle tk)) * speed tk * terrain_speed)%float in
    let new_x := (x tk + dx)%float in
    let new_y := (y tk + dy)%float in
    can ← _can_move_to g tk new_x new_y;
    Some (if (can : bool) then moved tk new_x new_y else tk).

(** [Tank.move_backward] *)
Definition move_backward (g : GameMap) (tk : t) : option t :=
  terrain_speed ← _get_terrain_speed g tk;
  if fle terrain_speed 0.0%float then Some tk
  else
    let dx := (math_cos (math_radians (angle tk)) * speed tk * terrain_speed * 0.6)%float in
    let dy := (math_sin (math_radians (angle tk)) * speed tk * terrain_speed * 0.6)%float in
    let new_x := (x tk - dx)%float in
    let new_y := (y tk - dy)%float in
    can ← _can_move_to g tk new_x new_y;
    Some (if (can : bool) then moved tk new_x new_y else tk).
End WithLibm.

(** [Tank.place_mine] *)
Definition place_mine (tk : t) (next_id : Z) : option Mine.t * t * Z :=
  if Resources.mines (resources tk) <=? 0 then (None, tk, next_id)
  else
    let r := resources tk in
    let r' := {| Resources.armor := Resources.armor r; Resources.shells := Resources.shells r;
                 Resources.mines := Resources.mines r - 1; Resources.wood := Resources.wood r |} in
    let '(m, n') := Mine.new next_id (x tk) (y tk) (team tk) false in
    (Some m, set_resources tk r', n').

(** [Tank.take_damage] *)
Definition take_damage (tk : t) (amount : Z) : t :=
  let r := resources tk in
  let tk' := set_resources tk
               {| Resources.armor := Resources.armor r - amount; Resources.shells := Resources.shells r;
                  Resources.mines := Resources.mines r; Resources.wood := Resources.wood r |} in
  if Resources.armor (resources tk') <=? 0 then destroy tk' else tk'.

(** [Tank.resupply] (the base argument is unused by the source). *)
Definition resupply (tk : t) : t :=
  let r := resources tk in
  set_resources tk
    {| Resources.armor := Z.min Config.TANK_MAX_ARMOR (Resources.armor r + 1);
       Resources.shells := Z.min Config.TANK_MAX_SHELLS (Resources.shells r + 5);
       Resources.mines := Z.min Config.TANK_MAX_MINES (Resources.mines r + 2);
       Resources.wood := Resources.wood r |}.
End Tank.

Module Pillbox.
Record t := {
  id : Z; x : float; y : float; alive : bool;
  team : Team; health : Z; fire_rate : Z; fire_cooldown : Z;
  range : float; size : Z; active : bool; aggression : Z
}.

Definition new (next_id : Z) (x0 y0 : float) (team0 : Team) : t * Z :=
  ({| id := next_id; x := x0; y := y0; alive := true; team := team0;
      health := Config.PILLBOX_MAX_HEALTH;
      fire_rate := Config.PILLBOX_FIRE_RATE; fire_cooldown := 0;
      range := Config.PILLBOX_RANGE; size := 8; active := true;
      aggression := 0 |}, next_id + 1).

Definition mk (p : t) (team0 : Team) (health0 cooldown : Z) (active0 : bool)
    (aggr : Z) : t :=
  {| id := id p; x := x p; y := y p; alive := alive p; team := team0;
     health := health0; fire_rate := fire_rate p; fire_cooldown := cooldown;
     range := range p; size := size p; active := active0;
     aggression := aggr |}.

(** [Pillbox.take_damage] *)
Definition take_damage (p : t) (amount : Z) : t :=
  let h := health p - amount in
  let ag := Z.min 8 (aggression p + 1) in
  if h <=? 0 then mk p NEUTRAL 0 (fire_cooldown p) false ag
  else mk p (team p) h (fire_cooldown p) (active p) ag.

(** [Pillbox.capture] *)
Definition capture (p : t) (new_team : Team) : t :=
  mk p new_team (Config.PILLBOX_MAX_HEALTH / 2) (fire_cooldown p) true 0.

Section WithLibm.
Context {LM : Libm}.

(** [Pillbox._fire_at]: the pillbox, the shell, the id counter. *)
Definition _fire_at (p : t) (target : Tank.t) (next_id : Z)
  : t * Shell.t * Z :=
  let ang := math_degrees (math_atan2 (Tank.y target - y p)%float
                                      (Tank.x target - x p)%float) in
  let adjusted_rate := Z.max 5 (fire_rate p - aggression p * 3) in
  let p' := mk p (team p) (health p) adjusted_rate (active p) (aggression p) in
  let '(sh, n') := Shell.new next_id (x p) (y p) ang (team p) (id p) in
  (p', sh, n').
End WithLibm.
End Pillbox.

Module Base.
Record t := {
  id : Z; x : float; y : float; alive : bool;
  team : Team; health : Z; size : Z;
  shells : Z; mines : Z; armor : Z; regen_timer : Z
}.

Definition new (next_id : Z) (x0 y0 : float) (team0 : Team) : t * Z :=
  ({| id := next_id; x := x0; y := y0; alive := true; team := team0;
      health := 16; size := 16; shells := 20; mines := 10; armor := 8;
      regen_timer := Config.BASE_RESUPPLY_RATE |}, next_id + 1).

Definition mk (b : t) (team0 : Team) (health0 shells0 mines0 armor0 timer : Z)
  : t :=
  {| id := id b; x := x b; y := y b; alive := alive b; team := team0;
     health := health0; size := size b; shells := shells0; mines := mines0;
     armor := armor0; regen_timer := timer |}.

(** [Base.update] *)
Definition update (b : t) : t :=
  let tm := regen_timer b - 1 in
  if tm <=? 0 then
    mk b (team b) (health b) (Z.min 40 (shells b + 1)) (Z.min 20 (mines b + 1))
       (Z.min 16 (armor b + 1)) Config.BASE_RESUPPLY_RATE
  else mk b (team b) (health b) (shells b) (mines b) (armor b) tm.

(** [Base.resupply_tank]: whether any resupply occurred, the base, the
    tank.  The three transfers run one after the other as in the source. *)
Definition resupply_tank (b : t) (tk : Tank.t) : bool * t * Tank.t :=
  if negb (Team_beq (Tank.team tk) (team b)) then (false, b, tk)
  else
    let r := Tank.resources tk in
    (* Armor first (most important) *)
    let '(done1, a_tank, a_base) :=
      if (Resources.armor r <? Config.TANK_MAX_ARMOR) && (0 <? armor b) then
        let transfer := Z.min 1 (Z.min (armor b)
                          (Config.TANK_MAX_ARMOR - Resources.armor r)) in
        (true, Resources.armor r + transfer, armor b - transfer)
      else (false, Resources.armor r, armor b) in
    (* Then shells *)
    let '(done2, s_tank, s_base) :=
      if (Resources.shells r <? Config.TANK_MAX_SHELLS) && (0 <? shells b) then
        let transfer := Z.min 5 (Z.min (shells b)
                          (Config.TANK_MAX_SHELLS - Resources.shells r)) in
        (true, Resources.shells r + transfer, shells b - transfer)
      else (false, Resources.shells r, shells b) in
    (* Then mines *)
    let '(done3, m_tank, m_base) :=
      if (Resources.mines r <? Config.TANK_MAX_MINES) && (0 <? mines b) then
        let transfer := Z.min 2 (Z.min (mines b)
                          (Config.TANK_MAX_MINES - Resources.mines r)) in
        (true, Resources.mines r + transfer, mines b - transfer)
      else (false, Resources.mines r, mines b) in
    let r' := {| Resources.armor := a_tank; Resources.shells := s_tank;
                 Resources.mines := m_tank; Resources.wood := Resources.wood r |} in
    (done1 || done2 || done3,
     mk b (team b) (health b) s_base m_base a_base (regen_timer b),
     Tank.set_resources tk r').

(** [Base.take_damage] *)
Definition take_damage (b : t) (amount : Z) : t :=
  let h := health b - amount in
  if h <=? 0 then mk b NEUTRAL 1 (shells b) (mines b) (armor b) (regen_timer b)
  else mk b (team b) h (shells b) (mines b) (armor b) (regen_timer b).

(** [Base.capture] *)
Definition capture (b : t) (new_team : Team) : t :=
  mk b new_team 8 (shells b) (mines b) (armor b) (regen_timer b).
End Base.

(** Python objects of the entity classes. *)
Inductive Entity :=
| ETank (tk : Tank.t)
| EShell (sh : Shell.t)
| EMine (m : Mine.t)
| EPillbox (p : Pillbox.t)
| EBase (b : Base.t).

Definition entity_alive (e : Entity) : bool :=
  match e with
  | ETank tk => Tank.alive tk
  | EShell sh => Shell.alive sh
  | EMine m => Mine.alive m
  | EPillbox p => Pillbox.alive p
  | EBase b => Base.alive b
  end.

(** Ghost log of the collision pass: one event per call of [take_damage],
    [resupply_tank] and [capture], with the two objects as they were just
    before the call. *)
Inductive event :=
| ShellHitTank (s o : nat) (sh : Shell.t) (tk : Tank.t)
| ShellHitPillbox (s o : nat) (sh : Shell.t) (p : Pillbox.t)
| MineHitTank (m o : nat) (mn : Mine.t) (tk : Tank.t)
| BaseResupply (t b : nat) (tk : Tank.t) (bs : Base.t)
| BaseCapture (t b : nat) (tk : Tank.t) (bs : Base.t).

(* ================================================================= *)
(** ** Section 4: the game state *)

Record GameState := {
  heap : list Entity;
  entities : list nat;
  pending_entities : list nat;
  game_map : GameMap;
  player : option nat;
  camera_x : float;
  camera_y : float;
  paused : bool;
  game_over : bool;
  score : Z;
  next_id : Z;                 (* Entity._next_id *)
  rand : nat -> float;         (* the draws of random.random() *)
  rand_pos : nat;
  log : list event
}.

Definition GS_with (s : GameState) (h : list Entity) (es ps : list nat)
    (g : GameMap) (cx cy : float) (nid : Z) (rp : nat) (l : list event)
  : GameState :=
  {| heap := h; entities := es; pending_entities := ps; game_map := g;
     player := player s; camera_x := cx; camera_y := cy; paused := paused s;
     game_over := game_over s; score := score s; next_id := nid;
     rand := rand s; rand_pos := rp; log := l |}.

(** The state and error monad of the engine. *)
Definition M (A : Type) : Type := GameState -> option (A * GameState).

Definition ret {A} (a : A) : M A := fun s => Some (a, s).
Definition bindM {A B} (m : M A) (f : A -> M B) : M B :=
  fun s => match m s with Some (a, s') => f a s' | None => None end.

Notation "x <-- m ;; k" := (bindM m (fun x => k))
  (at level 100, m at next level, right associativity).
Notation "m ;;; k" := (bindM m (fun _ => k))
  (at level 100, right associativity).

Definition gets {A} (f : GameState -> A) : M A := fun s => Some (f s, s).
Definition modify (f : GameState -> GameState) : M unit :=
  fun s => Some (tt, f s).
Definition lift {A} (o : option A) : M A :=
  fun s => match o with Some a => Some (a, s) | None => None end.

Definition load (a : nat) : M Entity := fun s => lift (heap s !! a) s.
Definition store (a : nat) (e : Entity) : M unit :=
  modify (fun s => GS_with s (<[a := e]> (heap s)) (entities s)
     (pending_entities s) (game_map s) (camera_x s) (camera_y s) (next_id s)
     (rand_pos s) (log s)).
Definition set_map (g : GameMap) : M unit :=
  modify (fun s => GS_with s (heap s) (entities s) (pending_entities s) g
     (camera_x s) (camera_y s) (next_id s) (rand_pos s) (log s)).
Definition emit (ev : event) : M unit :=
  modify (fun s => GS_with s (heap s) (entities s) (pending_entities s)
     (game_map s) (camera_x s) (camera_y s) (next_id s) (rand_pos s)
     (log s ++ [ev])).

(** [for x in xs: body(x)] *)
Fixpoint for_ (xs : list nat) (body : nat -> M unit) : M unit :=
  match xs with
  | [] => ret tt
  | x :: xs' => body x ;;; for_ xs' body
  end.

(** [for x in xs: ... break ...]: the body answers whether it broke. *)
Fixpoint for_break (xs : list nat) (body : nat -> M bool) : M unit :=
  match xs with
  | [] => ret tt
  | x :: xs' => brk <-- body x ;; if brk then ret tt else for_break xs' body
  end.

Definition dist (x1 y1 x2 y2 : float) : float :=
  PrimFloat.sqrt ((x1 - x2) * (x1 - x2) + (y1 - y2) * (y1 - y2))%float.

(** [dist < r] with [r] a Python int. *)
Definition within (x1 y1 x2 y2 : float) (r : Z) : bool :=
  flt (dist x1 y1 x2 y2) (float_of_Z r).

(** [Mine.detonate] *)
Definition mine_detonate (a : nat) (mn : Mine.t) : M unit :=
  tx <-- lift (int_floordiv (Mine.x mn) Config.TILE_SIZE) ;;
  ty <-- lift (int_floordiv (Mine.y mn) Config.TILE_SIZE) ;;
  g <-- gets game_map ;;
  g' <-- lift (set_tile g tx ty CRATER) ;;
  set_map g' ;;;
  store a (EMine (Mine.destroy mn)).

(** The inner loops read the fields of the outer entity once: the only
    object written before the [break] is [other], which is of another
    class, so the outer object is the same at every iteration. *)

(** Shell vs Tank, for one shell [a] *)
Definition shell_vs_tank (a : nat) : M unit :=
  e <-- load a ;;
  match e with
  | EShell sh =>
    if Shell.alive sh then
      es <-- gets entities ;;
      for_break es (fun o =>
        eo <-- load o ;;
        match eo with
        | ETank tk =>
          if Tank.alive tk then
            if Tank.id tk =? Shell.owner_id sh then ret false
            else if Team_beq (Tank.team tk) (Shell.team sh) then ret false
            else if within (Shell.x sh) (Shell.y sh) (Tank.x tk) (Tank.y tk)
                           (Tank.size tk + Shell.radius sh) then
              emit (ShellHitTank a o sh tk) ;;;
              store o (ETank (Tank.take_damage tk (Shell.damage sh))) ;;;
              store a (EShell (Shell.destroy sh)) ;;;
              ret true
            else ret false
          else ret false
        | _ => ret false
        end)
    else ret tt
  | _ => ret tt
  end.

(** Shell vs Pillbox, for one shell [a] *)
Definition shell_vs_pillbox (a : nat) : M unit :=
  e <-- load a ;;
  match e with
  | EShell sh =>
    if Shell.alive sh then
      es <-- gets entities ;;
      for_break es (fun o =>
        eo <-- load o ;;
        match eo with
        | EPillbox p =>
          if Pillbox.alive p && Pillbox.active p then
            if Team_beq (Pillbox.team p) (Shell.team sh) then ret false
            else if within (Shell.x sh) (Shell.y sh) (Pillbox.x p) (Pillbox.y p)
                           (Pillbox.size p + Shell.radius sh) then
              emit (ShellHitPillbox a o sh p) ;;;
              store o (EPillbox (Pillbox.take_damage p (Shell.damage sh))) ;;;
              store a (EShell (Shell.destroy sh)) ;;;
              ret true
            else ret false
          else ret false
        | _ => ret false
        end)
    else ret tt
  | _ => ret tt
  end.

(** Tank vs Mine, for one mine [a] *)
Definition tank_vs_mine (a : nat) : M unit :=
  e <-- load a ;;
  match e with
  | EMine mn =>
    if Mine.alive mn then
      es <-- gets entities ;;
      for_break es (fun o =>
        eo <-- load o ;;
        match eo with
        | ETank tk =>
          if Tank.alive tk then
            if Team_beq (Tank.team tk) (Mine.team mn) then ret false
            else if within (Mine.x mn) (Mine.y mn) (Tank.x tk) (Tank.y tk)
                           (Tank.size tk + Mine.radius mn) then
              emit (MineHitTank a o mn tk) ;;;
              store o (ETank (Tank.take_damage tk (Mine.damage mn))) ;;;
              mine_detonate a mn ;;;
              ret true
            else ret false
          else ret false
        | _ => ret false
        end)
    else ret tt
  | _ => ret tt
  end.

(** The contact branch of Tank vs Base, on the two objects. *)
Definition tank_base_contact (tk : Tank.t) (b : Base.t) : Tank.t * Base.t :=
  if Team_beq (Base.team b) (Tank.team tk) then
    let '(_, b', tk') := Base.resupply_tank b tk in (tk', b')
  else if Team_beq (Base.team b) NEUTRAL then (tk, Base.capture b (Tank.team tk))
  else (tk, b).

(** Tank vs Base, for one tank [a]: [resupply_tank] writes the tank, so
    the inner loop reads it again at every base. *)
Definition tank_vs_base (a : nat) : M unit :=
  e <-- load a ;;
  match e with
  | ETank tk0 =>
    if Tank.alive tk0 then
      es <-- gets entities ;;
      for_ es (fun o =>
        eo <-- load o ;;
        match eo with
        | EBase b =>
          et <-- load a ;;
          match et with
          | ETank tk =>
            if within (Tank.x tk) (Tank.y tk) (Base.x b) (Base.y b)
                      (Tank.size tk + Base.size b) then
              if Team_beq (Base.team b) (Tank.team tk) then
                emit (BaseResupply a o tk b) ;;;
                let '(tk', b') := tank_base_contact tk b in
                store o (EBase b') ;;; store a (ETank tk')
              else if Team_beq (Base.team b) NEUTRAL then
                emit (BaseCapture a o tk b) ;;;
                let '(tk', b') := tank_base_contact tk b in
                store o (EBase b') ;;; store a (ETank tk')
              else ret tt
            else ret tt
          | _ => lift None
          end
        | _ => ret tt
        end)
    else ret tt
  | _ => ret tt
  end.

(** [GameState._process_collisions] *)
Definition _process_collisions : M unit :=
  es1 <-- gets entities ;; for_ es1 shell_vs_tank ;;;
  es2 <-- gets entities ;; for_ es2 shell_vs_pillbox ;;;
  es3 <-- gets entities ;; for_ es3 tank_vs_mine ;;;
  es4 <-- gets entities ;; for_ es4 tank_vs_base.

(** [self.entities = [e for e in self.entities if e.alive]] *)
Fixpoint keep_alive (es : list nat) : M (list nat) :=
  match es with
  | [] => ret []
  | a :: es' =>
      e <-- load a ;;
      rest <-- keep_alive es' ;;
      ret (if entity_alive e then a :: rest else rest)
  end.

Definition set_entities (es : list nat) : M unit :=
  modify (fun s => GS_with s (heap s) es (pending_entities s) (game_map s)
     (camera_x s) (camera_y s) (next_id s) (rand_pos s) (log s)).

(** [GameState.remove_dead_entities] *)
Definition remove_dead_entities : M unit :=
  es <-- gets entities ;; es' <-- keep_alive es ;; set_entities es'.

(** [GameState.add_entity]: append to the pending-spawn buffer. *)
Definition add_entity (a : nat) : M unit :=
  modify (fun s => GS_with s (heap s) (entities s) (pending_entities s ++ [a])
     (game_map s) (camera_x s) (camera_y s) (next_id s) (rand_pos s) (log s)).

(** Object creation: a fresh heap cell. *)
Definition alloc (e : Entity) : M nat :=
  fun s => Some (length (heap s),
    GS_with s (heap s ++ [e]) (entities s) (pending_entities s) (game_map s)
      (camera_x s) (camera_y s) (next_id s) (rand_pos s) (log s)).

Definition set_next_id (n : Z) : M unit :=
  modify (fun s => GS_with s (heap s) (entities s) (pending_entities s)
     (game_map s) (camera_x s) (camera_y s) n (rand_pos s) (log s)).

(** [random.random()] *)
Definition random_random : M float :=
  fun s => Some (rand s (rand_pos s),
    GS_with s (heap s) (entities s) (pending_entities s) (game_map s)
      (camera_x s) (camera_y s) (next_id s) (S (rand_pos s)) (log s)).

(** The head of [GameState.update]: merge the pending buffer. *)
Definition merge_pending : M unit :=
  modify (fun s => GS_with s (heap s) (entities s ++ pending_entities s) []
     (game_map s) (camera_x s) (camera_y s) (next_id s) (rand_pos s) (log s)).

(** Python's [min(a, b)] and [max(a, b)]: the first argument unless the
    second is strictly better. *)
Definition py_min (a b : float) : float := if flt b a then b else a.
Definition py_max (a b : float) : float := if flt a b then b else a.

Section WithLibm.
Context {LM : Libm}.

(** [Shell.update] *)
Definition shell_update (a : nat) (sh : Shell.t) : M unit :=
  let x' := (Shell.x sh + math_cos (math_radians (Shell.angle sh)) * Shell.speed sh)%float in
  let y' := (Shell.y sh + math_sin (math_radians (Shell.angle sh)) * Shell.speed sh)%float in
  let sh1 := Shell.set_lifetime (Shell.set_pos sh x' y') (Shell.lifetime sh - 1) in
  if Shell.lifetime sh1 <=? 0 then store a (EShell (Shell.destroy sh1))
  else
    tx <-- lift (int_floordiv x' Config.TILE_SIZE) ;;
    ty <-- lift (int_floordiv y' Config.TILE_SIZE) ;;
    g <-- gets game_map ;;
    tile <-- lift (get_tile g tx ty) ;;
    let terrain := TERRAIN_DATA tile in
    if blocks_shots terrain then
      (if destructible terrain then
         g' <-- lift (damage_tile g tx ty) ;; set_map g'
       else ret tt) ;;;
      store a (EShell (Shell.destroy sh1))
    else if flt x' 0 || flt (float_of_Z (pixel_width g)) x'
            || flt y' 0 || flt (float_of_Z (pixel_height g)) y' then
      store a (EShell (Shell.destroy sh1))
    else store a (EShell sh1).

(** [Pillbox._find_target]: the loop over [game_state.entities]. *)
Fixpoint _find_target_loop (p : Pillbox.t) (es : list nat)
    (best : option Tank.t) (best_distance : float) : M (option Tank.t) :=
  match es with
  | [] => ret best
  | o :: es' =>
      e <-- load o ;;
      match e with
      | ETank tk =>
        if negb (Team_beq (Tank.team tk) (Pillbox.team p)) then
          let d := dist (Tank.x tk) (Tank.y tk) (Pillbox.x p) (Pillbox.y p) in
          if flt d (Pillbox.range p) && flt d best_distance then
            _find_target_loop p es' (Some tk) d
          else _find_target_loop p es' best best_distance
        else _find_target_loop p es' best best_distance
      | _ => _find_target_loop p es' best best_distance
      end
  end.

Definition _find_target (p : Pillbox.t) : M (option Tank.t) :=
  es <-- gets entities ;; _find_target_loop p es None PrimFloat.infinity.

(** [Pillbox.update] *)
Definition pillbox_update (a : nat) (p : Pillbox.t) : M unit :=
  if negb (Pillbox.active p) then ret tt
  else
    let cd := if 0 <? Pillbox.fire_cooldown p then Pillbox.fire_cooldown p - 1
              else Pillbox.fire_cooldown p in
    ag <-- (if 0 <? Pillbox.aggression p then
              r <-- random_random ;;
              ret (if flt r 0.01 then Z.max 0 (Pillbox.aggression p - 1)
                   else Pillbox.aggression p)
            else ret (Pillbox.aggression p)) ;;
    let p1 := Pillbox.mk p (Pillbox.team p) (Pillbox.health p) cd
                (Pillbox.active p) ag in
    store a (EPillbox p1) ;;;
    if cd <=? 0 then
      target <-- _find_target p1 ;;
      match target with
      | Some tk =>
          nid <-- gets next_id ;;
          let '(p2, sh, nid') := Pillbox._fire_at p1 tk nid in
          store a (EPillbox p2) ;;;
          set_next_id nid' ;;;
          sa <-- alloc (EShell sh) ;;
          add_entity sa
      | None => ret tt
      end
    else ret tt.

(** [entity.update(self)], dispatched on the class. *)
Definition entity_update (a : nat) : M unit :=
  e <-- load a ;;
  match e with
  | ETank tk => store a (ETank (Tank.update tk))
  | EShell sh => shell_update a sh
  | EMine _ => ret tt
  | EPillbox p => pillbox_update a p
  | EBase b => store a (EBase (Base.update b))
  end.

(** The entity-update phase of [GameState.update]. *)
Definition update_entities : M unit :=
  es <-- gets entities ;; for_ es entity_update.

(** [GameState._update_camera] *)
Definition _update_camera : M unit :=
  pl <-- gets player ;;
  match pl with
  | None => ret tt
  | Some pa =>
    e <-- load pa ;;
    match e with
    | ETank tk =>
      s <-- gets (fun s => s) ;;
      let target_x := (Tank.x tk - float_of_Z (Config.WINDOW_WIDTH / 2))%float in
      let target_y := (Tank.y tk - float_of_Z (Config.WINDOW_HEIGHT / 2))%float in
      let cx := (camera_x s + (target_x - camera_x s) * 0.1)%float in
      let cy := (camera_y s + (target_y - camera_y s) * 0.1)%float in
      let g := game_map s in
      let cx' := py_max 0 (py_min (float_of_Z (pixel_width g - Config.WINDOW_WIDTH)) cx) in
      let cy' := py_max 0 (py_min (float_of_Z (pixel_height g - Config.WINDOW_HEIGHT)) cy) in
      modify (fun s => GS_with s (heap s) (entities s) (pending_entities s)
                (game_map s) cx' cy' (next_id s) (rand_pos s) (log s))
    | _ => lift None
    end
  end.

(** [GameState.update] *)
Definition update : M unit :=
  stop <-- gets (fun s => paused s || game_over s) ;;
  if stop then ret tt
  else
    merge_pending ;;;
    update_entities ;;;
    _process_collisions ;;;
    remove_dead_entities ;;;
    pl <-- gets player ;;
    match pl with
    | Some pa => e <-- load pa ;;
                 if entity_alive e then _update_camera else ret tt
    | None => ret tt
    end.
End WithLibm.

(* ================================================================= *)
(** ** Concrete inputs *)

(** A libm for running concrete frames: CPython's [radians]/[degrees]
    constants and low-order series for the others.  It is exact where the
    concrete runs below use it: [atan2(0.0, x) = 0.0] for [x > 0],
    [radians(0.0) = 0.0], [degrees(0.0) = 0.0], [cos(0.0) = 1.0] and
    [sin(0.0) = 0.0], as the C library is. *)
Definition py_pi : float := 3.141592653589793.

Definition series_atan (t : float) : float :=
  (t - t * t * t / 3 + t * t * t * t * t / 5)%float.

Definition approx_atan2 (yv xv : float) : float :=
  if flt 0 xv then series_atan (yv / xv)%float
  else if flt xv 0 then
    (if fle 0 yv then (series_atan (yv / xv) + py_pi)%float
     else (series_atan (yv / xv) - py_pi)%float)
  else if flt 0 yv then (py_pi / 2)%float
  else if flt yv 0 then (- (py_pi / 2))%float
  else 0%float.

#[local] Instance approx_libm : Libm := {
  math_cos := fun r => (1 - r * r / 2 + r * r * r * r / 24)%float;
  math_sin := fun r => (r - r * r * r / 6 + r * r * r * r * r / 120)%float;
  math_atan2 := approx_atan2;
  math_radians := fun d => (d * (py_pi / 180))%float;
  math_degrees := fun r => (r * (180 / py_pi))%float
}.

(** A fresh [GameState()] holding the given objects as live entities. *)
Definition state_of (h : list Entity) (es : list nat) (nid : Z) : GameState :=
  {| heap := h; entities := es; pending_entities := [];
     game_map := new_GameMap Config.MAP_WIDTH Config.MAP_HEIGHT;
     player := None; camera_x := 0; camera_y := 0; paused := false;
     game_over := false; score := 0; next_id := nid;
     rand := fun _ => 0.5%float; rand_pos := 0; log := [] |}.

Definition with_resources (tk : Tank.t) (a s m : Z) : Tank.t :=
  Tank.set_resources tk
    {| Resources.armor := a; Resources.shells := s; Resources.mines := m;
       Resources.wood := Resources.wood (Tank.resources tk) |}.

(** The spec's resupply scenario: a team-1 tank with armor 5 (shells and
    mines full) on a team-1 base with armor stock 8. *)
Definition scenario_tank : Tank.t :=
  with_resources (fst (Tank.new 0 100 100 TEAM_1)) 5 40 40.
Definition scenario_base : Base.t := fst (Base.new 1 110 100 TEAM_1).
Definition resupply_state : GameState :=
  state_of [ETank scenario_tank; EBase scenario_base] [0%nat; 1%nat] 2.

(** A team-2 pillbox with a team-1 tank 5 pixels to its right. *)
Definition pill_state : GameState :=
  state_of [EPillbox (fst (Pillbox.new 0 200 200 TEAM_2));
            ETank (fst (Tank.new 1 205 200 TEAM_1))] [0%nat; 1%nat] 2.

(* ================================================================= *)
(** ** Predicates used by the statements *)

(** [speed_multiplier == 0 and not passable] *)
Definition zero_speed_impassable (k : TileType) : bool :=
  PrimFloat.eqb (speed_multiplier (TERRAIN_DATA k)) 0 && negb (passable (TERRAIN_DATA k)).

(** [tank.has_boat = b] *)
Definition with_boat (tk : Tank.t) (b : bool) : Tank.t :=
  {| Tank.id := Tank.id tk; Tank.x := Tank.x tk; Tank.y := Tank.y tk;
     Tank.alive := Tank.alive tk; Tank.team := Tank.team tk;
     Tank.angle := Tank.angle tk; Tank.resources := Tank.resources tk;
     Tank.speed := Tank.speed tk; Tank.size := Tank.size tk;
     Tank.is_moving := Tank.is_moving tk; Tank.has_boat := b;
     Tank.lgm_deployed := Tank.lgm_deployed tk;
     Tank.lgm_position := Tank.lgm_position tk;
     Tank.lgm_respawn_timer := Tank.lgm_respawn_timer tk;
     Tank.carried_pillboxes := Tank.carried_pillboxes tk;
     Tank.fire_cooldown := Tank.fire_cooldown tk;
     Tank.fire_rate := Tank.fire_rate tk |}.

(** The resource-changing calls on one tank. *)
Inductive TankOp :=
| OpFire
| OpPlaceMine
| OpTakeDamage (amount : Z)
| OpResupply
| OpBaseResupply (b : Base.t).

(** Damage amounts are [Shell.damage] or [Mine.damage]: never negative. *)
Definition op_ok (op : TankOp) : Prop :=
  match op with OpTakeDamage n => 0 <= n | _ => True end.

Section TankOps.
Context {LM : Libm}.

Definition run_op (op : TankOp) (st : Tank.t * Z) : Tank.t * Z :=
  let '(tk, nid) := st in
  match op with
  | OpFire => let '(_, tk', nid') := Tank.fire tk nid in (tk', nid')
  | OpPlaceMine => let '(_, tk', nid') := Tank.place_mine tk nid in (tk', nid')
  | OpTakeDamage n => (Tank.take_damage tk n, nid)
  | OpResupply => (Tank.resupply tk, nid)
  | OpBaseResupply b => let '(_, _, tk') := Base.resupply_tank b tk in (tk', nid)
  end.

Definition run_ops (ops : list TankOp) (st : Tank.t * Z) : Tank.t * Z :=
  fold_left (fun acc op => run_op op acc) ops st.
End TankOps.

Definition res_le_max (r : Resources.t) : Prop :=
  Resources.armor r <= Config.TANK_MAX_ARMOR /\
  Resources.shells r <= Config.TANK_MAX_SHELLS /\
  Resources.mines r <= Config.TANK_MAX_MINES.

(** The shell a logged damage call came from. *)
Definition shell_event_src (ev : event) : option nat :=
  match ev with
  | ShellHitTank s _ _ _ | ShellHitPillbox s _ _ _ => Some s
  | _ => None
  end.

(** How many damage calls the shell at address [a] made. *)
Definition shell_hits (a : nat) (evs : list event) : nat :=
  length (filter (fun ev => shell_event_src ev = Some a) evs).

(** The exclusions, on the objects as they were at the call. *)
Definition ev_excl (ev : event) : Prop :=
  match ev with
  | ShellHitTank _ _ sh tk =>
      Tank.alive tk = true /\ Tank.id tk <> Shell.owner_id sh /\
      Tank.team tk <> Shell.team sh
  | ShellHitPillbox _ _ sh p =>
      Pillbox.alive p = true /\ Pillbox.active p = true /\
      Pillbox.team p <> Shell.team sh
  | _ => True
  end.

(** The collision category of a call: 1 Shell-Tank, 2 Shell-Pillbox,
    3 Tank-Mine, 4 Tank-Base. *)
Definition ev_category (ev : event) : nat :=
  match ev with
  | ShellHitTank _ _ _ _ => 1
  | ShellHitPillbox _ _ _ _ => 2
  | MineHitTank _ _ _ _ => 3
  | BaseResupply _ _ _ _ | BaseCapture _ _ _ _ => 4
  end.

Definition no_live_shell (h : list Entity) (a : nat) : Prop :=
  forall sh, h !! a = Some (EShell sh) -> Shell.alive sh = false.

(** The collision invariant: the calls logged since [L] respect the
    exclusions, and a shell that made a call is no longer alive. *)
Definition collision_inv (L : list event) (s : GameState) : Prop :=
  exists evs, log s = L ++ evs /\ Forall ev_excl evs /\
    forall a, (shell_hits a evs <= 1)%nat /\
              (shell_hits a evs = 1%nat -> no_live_shell (heap s) a).

(** Every reference held by the state points into the heap. *)
Definition valid_refs (s : GameState) : Prop :=
  Forall (fun a => (a < length (heap s))%nat) (entities s ++ pending_entities s).

Definition tank_at (s : GameState) (a : nat) : option Tank.t :=
  match heap s !! a with Some (ETank tk) => Some tk | _ => None end.
Definition base_at (s : GameState) (a : nat) : option Base.t :=
  match heap s !! a with Some (EBase b) => Some b | _ => None end.

(** The per-tick transfer of one resource in the spec's words: capped by
    the per-tick amount [cap], by the base's stock [have] and by the room
    left under the tank's maximum [max - cur]; nothing when the tank is
    full or the base is empty. *)
Definition spec_transfer (cap have max cur : Z) : Z :=
  if (cur <? max) && (0 <? have) then Z.min cap (Z.min have (max - cur)) else 0.

(** A fresh 64 x 48 map with deep water at tile (3, 3). *)
Definition water_map : GameMap :=
  match set_tile (new_GameMap Config.MAP_WIDTH Config.MAP_HEIGHT) 3 3 DEEP_WATER with
  | Some g => g
  | None => new_GameMap Config.MAP_WIDTH Config.MAP_HEIGHT
  end.

(** A fresh 64 x 48 map with a wall at tile (5, 5). *)
Definition wall_map : GameMap :=
  match set_tile (new_GameMap Config.MAP_WIDTH Config.MAP_HEIGHT) 5 5 WALL with
  | Some g => g
  | None => new_GameMap Config.MAP_WIDTH Config.MAP_HEIGHT
  end.

(** A team-2 shell (owner 9) two pixels from a team-1 tank. *)
Definition shell_state : GameState :=
  state_of [ETank (fst (Tank.new 0 100 100 TEAM_1));
            EShell (fst (Shell.new 1 102 100 0 TEAM_2 9))] [0%nat; 1%nat] 2.

(** An entity that is not a live shell. *)
Definition not_live_shell (e : Entity) : Prop :=
  match e with EShell sh => Shell.alive sh = false | _ => True end.

(** Every run of [m] that succeeds relates its start and end states by [R]. *)
Definition rel (R : GameState -> GameState -> Prop) {A} (m : M A) : Prop :=
  forall s x s', m s = Some (x, s') -> R s s'.

(** One collision category [i]: the invariant is kept and every logged call
    belongs to category [i]. *)
Definition Rc (i : nat) (s s' : GameState) : Prop :=
  (forall L, collision_inv L s -> collision_inv L s') /\
  exists evs, log s' = log s ++ evs /\ Forall (fun e => ev_category e = i) evs.

(** Relations between the state before and after a phase of a frame. *)
Class PO (R : GameState -> GameState -> Prop) := {
  po_refl : forall s, R s s;
  po_trans : forall s1 s2 s3, R s1 s2 -> R s2 s3 -> R s1 s3
}.

(** The entity-update phase: the live list is kept, the heap only grows and
    the pending buffer only receives addresses of cells created meanwhile. *)
Definition R_upd (s s' : GameState) : Prop :=
  entities s' = entities s /\ (length (heap s) <= length (heap s'))%nat /\
  exists new, pending_entities s' = pending_entities s ++ new /\
              Forall (fun a => (length (heap s) <= a)%nat) new.

(** The collision pass: both address lists are kept. *)
Definition R_col (s s' : GameState) : Prop :=
  entities s' = entities s /\ pending_entities s' = pending_entities s.

(** The camera update: the heap and both address lists are kept. *)
Definition R_cam (s s' : GameState) : Prop := heap s' = heap s /\ R_col s s'.

(** The state after one frame, or the state itself if the frame failed. *)
Definition after_update {LM : Libm} (s : GameState) : GameState :=
  match update s with Some (_, s') => s' | None => s end.

(* ================================================================= *)
(** ** Predicates of the further properties *)

(** The stock bounds [Base.update] caps at: 40 shells, 20 mines, 16 armor. *)
Definition base_stock_ok (b : Base.t) : Prop :=
  0 <= Base.shells b <= 40 /\ 0 <= Base.mines b <= 20 /\ 0 <= Base.armor b <= 16.

(** A pillbox's aggression within [0, 8] and its cooldown not negative. *)
Definition pill_ok (p : Pillbox.t) : Prop :=
  0 <= Pillbox.aggression p <= 8 /\ 0 <= Pillbox.fire_cooldown p.


(* ================================================================= *)
(** ** Map generation and the game set-up *)

(** [range(a, a + n)] *)
Fixpoint py_range_from (a : Z) (n : nat) : list Z :=
  match n with
  | O => []
  | S n' => a :: py_range_from (a + 1) n'
  end.

(** [range(a, b)] *)
Definition py_range (a b : Z) : list Z := py_range_from a (Z.to_nat (b - a)).

(** [for i in xs: body(i)] over ints. *)
Fixpoint for_Z (xs : list Z) (body : Z -> M unit) : M unit :=
  match xs with
  | [] => ret tt
  | i :: xs' => body i ;;; for_Z xs' body
  end.

(** The position a Python index [i] denotes in a list of length [n]
    (negative indices count from the end); [None] is the [IndexError]. *)
Definition py_index (n : nat) (i : Z) : option nat :=
  let j := if i <? 0 then i + Z.of_nat n else i in
  if (0 <=? j) && (j <? Z.of_nat n) then Some (Z.to_nat j) else None.

(** [tiles[y][x] = k] on the nested lists. *)
Definition tiles_setitem (ts : list (list TileType)) (x y : Z) (k : TileType)
  : option (list (list TileType)) :=
  iy ← py_index (length ts) y;
  row ← ts !! iy;
  ix ← py_index (length row) x;
  Some (<[iy := <[ix := k]> row]> ts).

(** [self.tiles[y][x] = k] in a method of the game map: a direct write,
    which leaves [_dirty] as it is. *)
Definition store_tile (x y : Z) (k : TileType) : M unit :=
  g <-- gets game_map ;;
  ts <-- lift (tiles_setitem (tiles g) x y k) ;;
  set_map {| width := width g; height := height g; tiles := ts; _dirty := _dirty g |}.

(** The random-terrain branch of [generate_random] for a draw [r]. *)
Definition random_terrain (r : float) : TileType :=
  if flt r 0.05 then FOREST
  else if flt r 0.08 then RIVER
  else if flt r 0.10 then SWAMP
  else if flt r 0.12 then WALL
  else GRASS.

(** The body of the two nested loops of [generate_random], for one cell. *)
Definition generate_cell (w h x y : Z) : M unit :=
  (* Border walls *)
  if (x =? 0) || (y =? 0) || (x =? w - 1) || (y =? h - 1) then store_tile x y WALL
  else
    (* Random terrain *)
    r <-- random_random ;;
    store_tile x y (random_terrain r).

(** [GameMap.generate_random] on [game_state.game_map], drawing from
    [random.random()]. *)
Definition generate_random : M unit :=
  g <-- gets game_map ;;
  let w := width g in
  let h := height g in
  for_Z (py_range 0 h) (fun y =>
    for_Z (py_range 0 w) (fun x => generate_cell w h x y)) ;;;
  (* Add some roads *)
  let mid_y := h / 2 in
  for_Z (py_range 5 (w - 5)) (fun x => store_tile x mid_y ROAD) ;;;
  let mid_x := w / 2 in
  for_Z (py_range 5 (h - 5)) (fun y => store_tile mid_x y ROAD) ;;;
  g' <-- gets game_map ;;
  set_map {| width := width g'; height := height g'; tiles := tiles g'; _dirty := true |}.

(** [enemy.angle = a] *)
Definition set_tank_angle (tk : Tank.t) (a : float) : Tank.t :=
  {| Tank.id := Tank.id tk; Tank.x := Tank.x tk; Tank.y := Tank.y tk;
     Tank.alive := Tank.alive tk; Tank.team := Tank.team tk; Tank.angle := a;
     Tank.resources := Tank.resources tk; Tank.speed := Tank.speed tk;
     Tank.size := Tank.size tk; Tank.is_moving := Tank.is_moving tk;
     Tank.has_boat := Tank.has_boat tk; Tank.lgm_deployed := Tank.lgm_deployed tk;
     Tank.lgm_position := Tank.lgm_position tk;
     Tank.lgm_respawn_timer := Tank.lgm_respawn_timer tk;
     Tank.carried_pillboxes := Tank.carried_pillboxes tk;
     Tank.fire_cooldown := Tank.fire_cooldown tk; Tank.fire_rate := Tank.fire_rate tk |}.

(** [Tank(x, y, team)]: a fresh object with the next id. *)
Definition new_tank (x0 y0 : float) (team0 : Team) : M nat :=
  nid <-- gets next_id ;;
  let '(tk, nid') := Tank.new nid x0 y0 team0 in
  set_next_id nid' ;;;
  alloc (ETank tk).

(** [Base(x, y, team)] *)
Definition new_base (x0 y0 : float) (team0 : Team) : M nat :=
  nid <-- gets next_id ;;
  let '(b, nid') := Base.new nid x0 y0 team0 in
  set_next_id nid' ;;;
  alloc (EBase b).

(** [Pillbox(x, y, team)] *)
Definition new_pillbox (x0 y0 : float) (team0 : Team) : M nat :=
  nid <-- gets next_id ;;
  let '(p, nid') := Pillbox.new nid x0 y0 team0 in
  set_next_id nid' ;;;
  alloc (EPillbox p).

(** [self.game_state.player = p] *)
Definition set_player (p : option nat) : M unit :=
  modify (fun s =>
    {| heap := heap s; entities := entities s;
       pending_entities := pending_entities s; game_map := game_map s;
       player := p; camera_x := camera_x s; camera_y := camera_y s;
       paused := paused s; game_over := game_over s; score := score s;
       next_id := next_id s; rand := rand s; rand_pos := rand_pos s;
       log := log s |}).

(** [self.game_state.entities.extend(xs)]; [append] is the one-element case. *)
Definition extend_entities (xs : list nat) : M unit :=
  es <-- gets entities ;; set_entities (es ++ xs).

(** [BoloGame._setup_game] *)
Definition _setup_game : M unit :=
  (* Generate map *)
  generate_random ;;;
  (* Spawn player *)
  player <-- new_tank (float_of_Z (Config.MAP_WIDTH * Config.TILE_SIZE / 4))
                      (float_of_Z (Config.MAP_HEIGHT * Config.TILE_SIZE / 2)) TEAM_1 ;;
  set_player (Some player) ;;;
  extend_entities [player] ;;;
  (* Spawn some enemies *)
  for_Z (py_range 0 3) (fun i =>
    enemy <-- new_tank (float_of_Z (Config.MAP_WIDTH * Config.TILE_SIZE * 3 / 4))
                (float_of_Z (Config.MAP_HEIGHT * Config.TILE_SIZE / 4 + i * 100)) TEAM_2 ;;
    e <-- load enemy ;;
    match e with
    | ETank tk => store enemy (ETank (set_tank_angle tk 180))  (* Face left *)
    | _ => lift None
    end ;;;
    extend_entities [enemy]) ;;;
  (* Spawn bases *)
  base1 <-- new_base 200 200 TEAM_1 ;;
  base2 <-- new_base (float_of_Z (Config.MAP_WIDTH * Config.TILE_SIZE - 200)) 200 TEAM_2 ;;
  base_neutral <-- new_base (float_of_Z (Config.MAP_WIDTH * Config.TILE_SIZE / 2))
                            (float_of_Z (Config.MAP_HEIGHT * Config.TILE_SIZE / 2)) NEUTRAL ;;
  extend_entities [base1; base2; base_neutral] ;;;
  (* Spawn pillboxes *)
  for_Z (py_range 0 4) (fun i =>
    pill <-- new_pillbox (float_of_Z (150 + i * 200))
                         (float_of_Z (Config.MAP_HEIGHT * Config.TILE_SIZE - 150)) NEUTRAL ;;
    extend_entities [pill]).

(** [GameState()]: a fresh game state. The object store, the class-level
    id counter [Entity._next_id] and the module-level random generator
    are process-wide and survive it. *)
Definition GameState_init (s : GameState) : GameState :=
  {| heap := heap s; entities := []; pending_entities := [];
     game_map := new_GameMap Config.MAP_WIDTH Config.MAP_HEIGHT;
     player := None; camera_x := 0; camera_y := 0;
     paused := false; game_over := false; score := 0;
     next_id := next_id s; rand := rand s; rand_pos := rand_pos s;
     log := log s |}.

(** The keys [BoloGame._handle_keydown] tests. *)
Inductive Key := K_ESCAPE | K_r | K_SPACE | K_m | K_other (code : Z).

(** [self.game_state.paused = not self.game_state.paused] *)
Definition toggle_paused : M unit :=
  modify (fun s =>
    {| heap := heap s; entities := entities s;
       pending_entities := pending_entities s; game_map := game_map s;
       player := player s; camera_x := camera_x s; camera_y := camera_y s;
       paused := negb (paused s); game_over := game_over s; score := score s;
       next_id := next_id s; rand := rand s; rand_pos := rand_pos s;
       log := log s |}).

Section KeyLibm.
Context {LM : Libm}.

(** [BoloGame._handle_keydown] *)
Definition _handle_keydown (key : Key) : M unit :=
  match key with
  | K_ESCAPE => toggle_paused
  | K_r =>
      (* Restart game - works even when player is dead *)
      modify GameState_init ;;; _setup_game
  | _ =>
      pl <-- gets player ;;
      match pl with
      | None => ret tt
      | Some pa =>
          e <-- load pa ;;
          if negb (entity_alive e) then ret tt
          else
            match key with
            | K_SPACE =>
                match e with
                | ETank tk =>
                    nid <-- gets next_id ;;
                    let '(shell, tk', nid') := Tank.fire tk nid in
                    store pa (ETank tk') ;;;
                    set_next_id nid' ;;;
                    match shell with
                    | Some sh => sa <-- alloc (EShell sh) ;; add_entity sa
                    | None => ret tt
                    end
                | _ => lift None
                end
            | K_m =>
                match e with
                | ETank tk =>
                    nid <-- gets next_id ;;
                    let '(mine, tk', nid') := Tank.place_mine tk nid in
                    store pa (ETank tk') ;;;
                    set_next_id nid' ;;;
                    match mine with
                    | Some mn => ma <-- alloc (EMine mn) ;; add_entity ma
                    | None => ret tt
                    end
                | _ => lift None
                end
            | _ => ret tt
            end
      end
  end.

End KeyLibm.

(** The class, [team] and [id] of an object. *)
Inductive EKind := KTank | KShell | KMine | KPillbox | KBase.

Definition entity_kind (e : Entity) : EKind :=
  match e with
  | ETank _ => KTank | EShell _ => KShell | EMine _ => KMine
  | EPillbox _ => KPillbox | EBase _ => KBase
  end.

Definition entity_team (e : Entity) : Team :=
  match e with
  | ETank tk => Tank.team tk | EShell sh => Shell.team sh | EMine m => Mine.team m
  | EPillbox p => Pillbox.team p | EBase b => Base.team b
  end.

Definition entity_id (e : Entity) : Z :=
  match e with
  | ETank tk => Tank.id tk | EShell sh => Shell.id sh | EMine m => Mine.id m
  | EPillbox p => Pillbox.id p | EBase b => Base.id b
  end.
(** A game whose player is a fresh team-1 tank at address 0. *)
Definition player_state : GameState :=
  {| heap := [ETank (fst (Tank.new 0 100 100 TEAM_1))]; entities := [0%nat];
     pending_entities := [];
     game_map := new_GameMap Config.MAP_WIDTH Config.MAP_HEIGHT;
     player := Some 0%nat; camera_x := 0; camera_y := 0; paused := false;
     game_over := false; score := 0; next_id := 1;
     rand := fun _ => 0.5%float; rand_pos := 0; log := [] |}.


(* ================================================================= *)
(** * Theorems *)

(* ----------------------------------------------------------------- *)
(** ** The terrain table *)

(** C7 (counterexample): three terrain kinds, not one, have speed
    multiplier 0 and are impassable (DEEP_WATER, WALL, DAMAGED_WALL). *)
Lemma C7_not_exactly_one_zero_speed_impassable :
  ~ (exists! k, zero_speed_impassable k = true).
Proof.
  intros [k [_ Hu]].
  pose proof (Hu DEEP_WATER eq_refl) as H1.
  pose proof (Hu WALL eq_refl) as H2.
  congruence.
Qed.

(** C7 (amended): no terrain kind has a negative speed multiplier; the
    kinds with speed multiplier 0 that are impassable are exactly
    DEEP_WATER, WALL and DAMAGED_WALL, and DEEP_WATER is the only one of
    them that does not block shots; [blocks_shots] holds exactly for WALL
    and DAMAGED_WALL. *)
Theorem terrain_table_facts :
  (forall k, flt (speed_multiplier (TERRAIN_DATA k)) 0 = false) /\
  (forall k, zero_speed_impassable k = true <->
             k = DEEP_WATER \/ k = WALL \/ k = DAMAGED_WALL) /\
  (forall k, zero_speed_impassable k && negb (blocks_shots (TERRAIN_DATA k)) = true <->
             k = DEEP_WATER) /\
  (forall k, blocks_shots (TERRAIN_DATA k) = true <-> k = WALL \/ k = DAMAGED_WALL).
Proof.
  repeat split; intros; destruct k; vm_compute in *;
    solve [ reflexivity | discriminate | intuition discriminate | auto ].
Qed.

(* ----------------------------------------------------------------- *)
(** ** The tile map *)

Lemma in_bounds_true (g : GameMap) (x y : Z) :
  in_bounds g x y = true <-> (0 <= x < width g /\ 0 <= y < height g).
Proof.
  unfold in_bounds. rewrite !andb_true_iff, !Z.leb_le, !Z.ltb_lt. tauto.
Qed.

Lemma wf_row (g : GameMap) (x y : Z) :
  wf_map g -> in_bounds g x y = true ->
  exists row, tiles g !! Z.to_nat y = Some row /\ length row = Z.to_nat (width g).
Proof.
  intros [Hh Hw] Hb%in_bounds_true.
  destruct (lookup_lt_is_Some_2 (tiles g) (Z.to_nat y)) as [row Hr].
  { rewrite Hh. lia. }
  exists row. split; [exact Hr|].
  rewrite Forall_lookup in Hw. exact (Hw _ _ Hr).
Qed.

Lemma wf_get_tile (g : GameMap) (x y : Z) :
  wf_map g -> in_bounds g x y = true ->
  exists row k, tiles g !! Z.to_nat y = Some row /\ row !! Z.to_nat x = Some k /\
                get_tile g x y = Some k.
Proof.
  intros Hwf Hb.
  destruct (wf_row g x y Hwf Hb) as [row [Hr Hl]].
  pose proof Hb as Hb'. apply in_bounds_true in Hb'.
  destruct (lookup_lt_is_Some_2 row (Z.to_nat x)) as [k Hk]; [lia|].
  exists row, k. repeat split; auto.
  unfold get_tile, tiles_at. rewrite Hb, Hr. exact Hk.
Qed.

Lemma set_tile_in (g : GameMap) (x y : Z) (k : TileType) :
  wf_map g -> in_bounds g x y = true ->
  exists g', set_tile g x y k = Some g' /\ width g' = width g /\
    height g' = height g /\ wf_map g' /\ get_tile g' x y = Some k /\
    (forall x' y', (x', y') <> (x, y) -> get_tile g' x' y' = get_tile g x' y').
Proof.
  intros Hwf Hb.
  destruct (wf_get_tile g x y Hwf Hb) as [row [k0 [Hr [Hk _]]]].
  destruct (wf_row g x y Hwf Hb) as [row' [Hr' Hl]].
  assert (row' = row) by congruence. subst row'.
  pose proof Hb as Hb'. apply in_bounds_true in Hb'.
  set (ts := <[Z.to_nat y := <[Z.to_nat x := k]> row]> (tiles g)).
  exists {| width := width g; height := height g; tiles := ts; _dirty := true |}.
  assert (Hy : (Z.to_nat y < length (tiles g))%nat).
  { destruct Hwf as [Hh _]. rewrite Hh. lia. }
  assert (Hx : (Z.to_nat x < length row)%nat) by lia.
  split; [|split; [reflexivity|split; [reflexivity|split; [|split]]]].
  - unfold set_tile, tiles_store. rewrite Hb, Hr. simpl. rewrite Hk. reflexivity.
  - destruct Hwf as [Hh Hw]. split; simpl.
    + unfold ts. rewrite length_insert. exact Hh.
    + unfold ts. apply Forall_insert; [exact Hw|].
      rewrite length_insert. exact Hl.
  - unfold get_tile, tiles_at. unfold in_bounds in *. simpl. rewrite Hb.
    unfold ts. rewrite list_lookup_insert_eq by exact Hy. simpl.
    apply list_lookup_insert_eq. exact Hx.
  - intros x' y' Hne. unfold get_tile, tiles_at, in_bounds. simpl.
    destruct ((0 <=? x') && (x' <? width g) && (0 <=? y') && (y' <? height g)) eqn:Hb2;
      [|reflexivity].
    pose proof Hb2 as Hb3. change (in_bounds g x' y' = true) in Hb3.
    apply in_bounds_true in Hb3.
    unfold ts.
    destruct (decide (y' = y)) as [->|Hny].
    + rewrite list_lookup_insert_eq by exact Hy. rewrite Hr. simpl.
      assert (x' <> x) by congruence.
      apply list_lookup_insert_ne. lia.
    + rewrite list_lookup_insert_ne by lia. reflexivity.
Qed.

(** C8: on a well-formed map, at an in-bounds cell of kind [k],
    [damage_tile] turns WALL into DAMAGED_WALL, DAMAGED_WALL into RUBBLE,
    FOREST into GRASS and SWAMP into CRATER, and leaves the map unchanged
    for every other kind (so RUBBLE and ROAD are left as they are). *)
Theorem damage_tile_table (g : GameMap) (x y : Z) (k : TileType) :
  wf_map g -> in_bounds g x y = true -> get_tile g x y = Some k ->
  exists g', damage_tile g x y = Some g' /\
    (k = WALL -> get_tile g' x y = Some DAMAGED_WALL) /\
    (k = DAMAGED_WALL -> get_tile g' x y = Some RUBBLE) /\
    (k = FOREST -> get_tile g' x y = Some GRASS) /\
    (k = SWAMP -> get_tile g' x y = Some CRATER) /\
    (k <> WALL -> k <> DAMAGED_WALL -> k <> FOREST -> k <> SWAMP -> g' = g) /\
    (k = RUBBLE \/ k = ROAD -> g' = g).
Proof.
  intros Hwf Hb Hk.
  unfold damage_tile. rewrite Hk. simpl.
  destruct k;
    try solve [exists g; repeat split; intros; first [reflexivity | discriminate | tauto]].
  all: match goal with
       | |- context [set_tile _ _ _ ?k'] =>
           destruct (set_tile_in g x y k' Hwf Hb) as [g' [Hs [_ [_ [_ [Hg _]]]]]];
           exists g'; rewrite Hs;
           repeat split; intros; first [exact Hg | discriminate | congruence | intuition discriminate]
       end.
Qed.

Lemma damage_tile_table_witness :
  exists g', damage_tile wall_map 5 5 = Some g' /\
    (WALL = WALL -> get_tile g' 5 5 = Some DAMAGED_WALL) /\
    (WALL = DAMAGED_WALL -> get_tile g' 5 5 = Some RUBBLE) /\
    (WALL = FOREST -> get_tile g' 5 5 = Some GRASS) /\
    (WALL = SWAMP -> get_tile g' 5 5 = Some CRATER) /\
    (WALL <> WALL -> WALL <> DAMAGED_WALL -> WALL <> FOREST -> WALL <> SWAMP ->
       g' = wall_map) /\
    (WALL = RUBBLE \/ WALL = ROAD -> g' = wall_map).
Proof.
  apply (damage_tile_table wall_map 5 5 WALL).
  - vm_compute. split; [reflexivity|]. repeat constructor.
  - vm_compute. reflexivity.
  - vm_compute. reflexivity.
Defined.

(** C9: outside the grid [get_tile] answers WALL and [set_tile] changes
    nothing; inside a well-formed grid [get_tile] reads the stored cell
    and [set_tile] stores exactly the given kind there, leaving every other
    cell as it was. *)
Theorem get_set_tile_bounds (g : GameMap) :
  (forall x y, in_bounds g x y = false -> get_tile g x y = Some WALL) /\
  (forall x y k, in_bounds g x y = false ->
     set_tile g x y k = Some g) /\
  (wf_map g -> forall x y, in_bounds g x y = true ->
     exists row k, tiles g !! Z.to_nat y = Some row /\
                   row !! Z.to_nat x = Some k /\ get_tile g x y = Some k) /\
  (wf_map g -> forall x y k, in_bounds g x y = true ->
     exists g', set_tile g x y k = Some g' /\ get_tile g' x y = Some k /\
       (forall x' y', (x', y') <> (x, y) -> get_tile g' x' y' = get_tile g x' y')).
Proof.
  split; [|split; [|split]].
  - intros x y Hb. unfold get_tile. rewrite Hb. reflexivity.
  - intros x y k Hb. unfold set_tile. rewrite Hb. reflexivity.
  - intros Hwf x y Hb. exact (wf_get_tile g x y Hwf Hb).
  - intros Hwf x y k Hb.
    destruct (set_tile_in g x y k Hwf Hb) as [g' [Hs [_ [_ [_ [Hg Ho]]]]]].
    exists g'. auto.
Qed.

Lemma get_set_tile_bounds_witness :
  get_tile wall_map 64 0 = Some WALL /\
  set_tile wall_map (-1) 3 GRASS = Some wall_map /\
  (exists row k, tiles wall_map !! Z.to_nat 5 = Some row /\
                 row !! Z.to_nat 5 = Some k /\ get_tile wall_map 5 5 = Some k) /\
  (exists g', set_tile wall_map 2 1 FOREST = Some g' /\
              get_tile g' 2 1 = Some FOREST /\
     (forall x' y', (x', y') <> (2, 1) -> get_tile g' x' y' = get_tile wall_map x' y')).
Proof.
  destruct (get_set_tile_bounds wall_map) as (H1 & H2 & H3 & H4).
  assert (Hwf : wf_map wall_map).
  { vm_compute. split; [reflexivity|]. repeat constructor. }
  split; [apply H1; vm_compute; reflexivity|].
  split; [apply H2; vm_compute; reflexivity|].
  split; [apply H3; [exact Hwf | vm_compute; reflexivity]|].
  apply H4; [exact Hwf | vm_compute; reflexivity].
Defined.

(* ----------------------------------------------------------------- *)
(** ** Pillboxes *)

(** C4: [take_damage(n)] raises aggression by one up to 8 whatever the
    attacker (the method has no team argument); when health falls to 0 or
    below it is clamped to 0 and the pillbox turns NEUTRAL and inactive;
    [capture(t)] gives team [t], health 8, [active] and aggression 0. *)
Theorem pillbox_damage_and_capture (p : Pillbox.t) (n : Z) (t : Team) :
  1 <= n ->
  Pillbox.aggression (Pillbox.take_damage p n) = Z.min 8 (Pillbox.aggression p + 1) /\
  (Pillbox.health p - n <= 0 ->
     Pillbox.health (Pillbox.take_damage p n) = 0 /\
     Pillbox.team (Pillbox.take_damage p n) = NEUTRAL /\
     Pillbox.active (Pillbox.take_damage p n) = false) /\
  Pillbox.team (Pillbox.capture p t) = t /\
  Pillbox.health (Pillbox.capture p t) = Config.PILLBOX_MAX_HEALTH / 2 /\
  Pillbox.health (Pillbox.capture p t) = 8 /\
  Pillbox.active (Pillbox.capture p t) = true /\
  Pillbox.aggression (Pillbox.capture p t) = 0.
Proof.
  intros _. unfold Pillbox.take_damage, Pillbox.capture.
  split; [|split; [|repeat split]].
  - destruct (Pillbox.health p - n <=? 0); reflexivity.
  - intros Hle. apply Z.leb_le in Hle. rewrite Hle. repeat split.
Qed.

Lemma pillbox_damage_and_capture_witness :
  Pillbox.aggression (Pillbox.take_damage (fst (Pillbox.new 0 0 0 TEAM_1)) 16) = 1 /\
  Pillbox.team (Pillbox.take_damage (fst (Pillbox.new 0 0 0 TEAM_1)) 16) = NEUTRAL.
Proof.
  destruct (pillbox_damage_and_capture (fst (Pillbox.new 0 0 0 TEAM_1)) 16 TEAM_2
              ltac:(lia)) as [Ha [Hh _]].
  split.
  - rewrite Ha. reflexivity.
  - apply Hh. vm_compute. discriminate.
Defined.

(* ----------------------------------------------------------------- *)
(** ** Tanks *)

Section TankTheorems.
Context {LM : Libm}.

(** C5: [fire()] returns None and leaves the tank as it is when on
    cooldown or out of shells; otherwise it takes one shell, resets the
    cooldown to the fire rate and returns a new shell at the cannon tip
    (tank position plus [size + 8] along the facing angle), with the
    tank's team and the tank's id as owner. *)
Theorem fire_spec (tk : Tank.t) (nid : Z) :
  ((0 < Tank.fire_cooldown tk \/ Resources.shells (Tank.resources tk) <= 0) ->
     Tank.fire tk nid = (None, tk, nid)) /\
  (Tank.fire_cooldown tk <= 0 -> 0 < Resources.shells (Tank.resources tk) ->
     exists sh,
       Tank.fire tk nid =
         (Some sh,
          Tank.mk tk (Tank.x tk) (Tank.y tk) (Tank.alive tk)
            {| Resources.armor := Resources.armor (Tank.resources tk);
               Resources.shells := Resources.shells (Tank.resources tk) - 1;
               Resources.mines := Resources.mines (Tank.resources tk);
               Resources.wood := Resources.wood (Tank.resources tk) |}
            (Tank.is_moving tk) (Tank.lgm_deployed tk)
            (Tank.lgm_respawn_timer tk) (Tank.fire_rate tk),
          nid + 1) /\
       Shell.x sh = (Tank.x tk + math_cos (math_radians (Tank.angle tk))
                                 * float_of_Z (Tank.size tk + 8))%float /\
       Shell.y sh = (Tank.y tk + math_sin (math_radians (Tank.angle tk))
                                 * float_of_Z (Tank.size tk + 8))%float /\
       Shell.angle sh = Tank.angle tk /\
       Shell.team sh = Tank.team tk /\
       Shell.owner_id sh = Tank.id tk /\
       Shell.id sh = nid /\ Shell.alive sh = true).
Proof.
  split.
  - intros Hc. unfold Tank.fire.
    replace ((0 <? Tank.fire_cooldown tk) || (Resources.shells (Tank.resources tk) <=? 0))
      with true; [reflexivity|].
    destruct Hc as [Hc|Hc].
    + apply Z.ltb_lt in Hc. rewrite Hc. reflexivity.
    + apply Z.leb_le in Hc. rewrite Hc, orb_true_r. reflexivity.
  - intros Hc Hs. unfold Tank.fire.
    replace ((0 <? Tank.fire_cooldown tk) || (Resources.shells (Tank.resources tk) <=? 0))
      with false.
    + eexists. split; [reflexivity|]. repeat split.
    + symmetry. apply orb_false_iff. split; [apply Z.ltb_ge | apply Z.leb_gt]; lia.
Qed.
End TankTheorems.

Lemma fire_spec_witness :
  Tank.fire (LM := approx_libm) (with_resources (fst (Tank.new 0 100 100 TEAM_1)) 8 0 40) 1 =
    (None, with_resources (fst (Tank.new 0 100 100 TEAM_1)) 8 0 40, 1) /\
  Resources.shells (Tank.resources (snd (fst
    (Tank.fire (LM := approx_libm) (fst (Tank.new 0 100 100 TEAM_1)) 1)))) = 39.
Proof.
  split.
  - destruct (fire_spec (LM := approx_libm)
                (with_resources (fst (Tank.new 0 100 100 TEAM_1)) 8 0 40) 1) as [Hnone _].
    apply Hnone. right. vm_compute. discriminate.
  - destruct (fire_spec (LM := approx_libm) (fst (Tank.new 0 100 100 TEAM_1)) 1)
      as [_ Hfire].
    destruct (Hfire ltac:(vm_compute; discriminate) ltac:(vm_compute; reflexivity))
      as [sh [E _]].
    rewrite E. reflexivity.
Defined.

Lemma transfer_room (cap have max cur : Z) :
  cur + Z.min cap (Z.min have (max - cur)) <= max.
Proof.
  pose proof (Z.le_min_r cap (Z.min have (max - cur))).
  pose proof (Z.le_min_r have (max - cur)). lia.
Qed.

Ltac split_ifs :=
  repeat match goal with
         | |- context [if ?c then _ else _] => destruct c
         end.

Section ResourceBounds.
Context {LM : Libm}.

Lemma run_op_bounded (op : TankOp) (st : Tank.t * Z) :
  op_ok op -> res_le_max (Tank.resources (fst st)) ->
  res_le_max (Tank.resources (fst (run_op op st))).
Proof.
  destruct st as [tk nid]. unfold res_le_max. simpl.
  destruct op as [| |n| |b]; simpl; intros Hok Hr.
  - unfold Tank.fire. split_ifs; simpl; lia.
  - unfold Tank.place_mine. split_ifs; simpl; lia.
  - unfold Tank.take_damage. split_ifs; simpl; lia.
  - pose proof (Z.le_min_l Config.TANK_MAX_ARMOR (Resources.armor (Tank.resources tk) + 1)).
    pose proof (Z.le_min_l Config.TANK_MAX_SHELLS (Resources.shells (Tank.resources tk) + 5)).
    pose proof (Z.le_min_l Config.TANK_MAX_MINES (Resources.mines (Tank.resources tk) + 2)).
    simpl. lia.
  - unfold Base.resupply_tank. split_ifs; simpl;
      repeat match goal with
             | |- context [?c + Z.min ?k (Z.min ?h (?m - ?c))] =>
                 pose proof (transfer_room k h m c);
                 generalize dependent (c + Z.min k (Z.min h (m - c)))
             end; intros; lia.
Qed.

(** C6: from resources within the maxima (armor 8, shells 40, mines 40),
    every finite sequence of [fire], [place_mine], [take_damage] (with the
    non-negative amounts the engine passes: [Shell.damage] = 1 and
    [Mine.damage] = 4), [resupply] and [Base.resupply_tank] (from any
    base) keeps them within the maxima. *)
Theorem resources_stay_bounded (ops : list TankOp) (tk : Tank.t) (nid : Z) :
  Forall op_ok ops -> res_le_max (Tank.resources tk) ->
  res_le_max (Tank.resources (fst (run_ops ops (tk, nid)))).
Proof.
  unfold run_ops. revert tk nid.
  induction ops as [|op ops IH]; intros tk nid Hops Hr; [exact Hr|].
  inversion Hops as [|? ? Hop Hrest]; subst. cbn [fold_left].
  destruct (run_op op (tk, nid)) as [tk' nid'] eqn:E.
  apply IH; [exact Hrest|].
  change tk' with (fst (tk', nid')). rewrite <- E.
  apply run_op_bounded; assumption.
Qed.
End ResourceBounds.

Lemma resources_stay_bounded_witness :
  res_le_max (Tank.resources (fst (run_ops (LM := approx_libm)
    [OpFire; OpTakeDamage 1; OpResupply; OpBaseResupply scenario_base; OpTakeDamage 4]
    (scenario_tank, 2)))).
Proof.
  apply (resources_stay_bounded (LM := approx_libm)).
  - repeat constructor; simpl; lia.
  - vm_compute. repeat split; discriminate.
Defined.

Section Movement.
Context {LM : Libm}.

(** C10: a tank standing on DEEP_WATER does not move forward or backward,
    with or without a boat ([_get_terrain_speed] yields deep water's 0.0
    either way, and both methods return before computing a move); the
    boat changes [_can_move_to] only for a DEEP_WATER destination, which
    is refused without it. *)
Theorem deep_water_no_movement (g : GameMap) (tk : Tank.t) (tx ty : Z) :
  Tank.tile_position tk = Some (tx, ty) -> get_tile g tx ty = Some DEEP_WATER ->
  Tank.move_forward g tk = Some tk /\ Tank.move_backward g tk = Some tk /\
  (forall x0 y0 dx dy,
     int_floordiv x0 Config.TILE_SIZE = Some dx ->
     int_floordiv y0 Config.TILE_SIZE = Some dy ->
     get_tile g dx dy <> Some DEEP_WATER ->
     Tank._can_move_to g (with_boat tk true) x0 y0 =
     Tank._can_move_to g (with_boat tk false) x0 y0) /\
  (forall x0 y0 dx dy,
     int_floordiv x0 Config.TILE_SIZE = Some dx ->
     int_floordiv y0 Config.TILE_SIZE = Some dy ->
     get_tile g dx dy = Some DEEP_WATER ->
     Tank._can_move_to g (with_boat tk false) x0 y0 = Some false).
Proof.
  intros Htp Hg.
  split; [|split; [|split]].
  - unfold Tank.move_forward, Tank._get_terrain_speed. rewrite Htp. simpl.
    rewrite Hg. simpl. destruct (Tank.has_boat tk); reflexivity.
  - unfold Tank.move_backward, Tank._get_terrain_speed. rewrite Htp. simpl.
    rewrite Hg. simpl. destruct (Tank.has_boat tk); reflexivity.
  - intros x0 y0 dx dy Hx Hy Hd. unfold Tank._can_move_to. simpl.
    split_ifs; try reflexivity.
    rewrite Hx, Hy. simpl.
    destruct (get_tile g dx dy) as [k|]; [|reflexivity]. simpl.
    destruct k; try reflexivity. congruence.
  - intros x0 y0 dx dy Hx Hy Hd. unfold Tank._can_move_to. simpl.
    split_ifs; try reflexivity.
    rewrite Hx, Hy. simpl. rewrite Hd. reflexivity.
Qed.
End Movement.

Lemma deep_water_no_movement_witness :
  Tank.move_forward (LM := approx_libm) water_map (fst (Tank.new 0 56 56 TEAM_1)) =
    Some (fst (Tank.new 0 56 56 TEAM_1)).
Proof.
  apply (deep_water_no_movement (LM := approx_libm) water_map
           (fst (Tank.new 0 56 56 TEAM_1)) 3 3);
    vm_compute; reflexivity.
Defined.

(* ----------------------------------------------------------------- *)
(** ** Tank-Base contact *)

Lemma Team_beq_true (a b : Team) : Team_beq a b = true <-> a = b.
Proof. destruct a, b; simpl; split; congruence. Qed.

Lemma Team_beq_false (a b : Team) : Team_beq a b = false <-> a <> b.
Proof. destruct a, b; simpl; split; congruence. Qed.

(** C3: at a contact, a base of the tank's own team transfers armor,
    shells and mines, each capped per tick (1, 5, 2), by the tank's maxima
    and by the base's stock; a NEUTRAL base is captured by the tank's team;
    a base of another non-NEUTRAL team changes nothing.  In the spec's
    scenario the collision pass takes the tank from armor 5 to 6 and the
    base's armor stock from 8 to 7. *)
Theorem tank_base_contact_resolution :
  (forall (tk : Tank.t) (b : Base.t), Base.team b = Tank.team tk ->
     let r := Tank.resources tk in
     let ta := spec_transfer 1 (Base.armor b) Config.TANK_MAX_ARMOR (Resources.armor r) in
     let ts := spec_transfer 5 (Base.shells b) Config.TANK_MAX_SHELLS (Resources.shells r) in
     let tm := spec_transfer 2 (Base.mines b) Config.TANK_MAX_MINES (Resources.mines r) in
     tank_base_contact tk b =
       (Tank.set_resources tk
          {| Resources.armor := Resources.armor r + ta;
             Resources.shells := Resources.shells r + ts;
             Resources.mines := Resources.mines r + tm;
             Resources.wood := Resources.wood r |},
        Base.mk b (Base.team b) (Base.health b) (Base.shells b - ts)
          (Base.mines b - tm) (Base.armor b - ta) (Base.regen_timer b))) /\
  (forall (tk : Tank.t) (b : Base.t), Base.team b = NEUTRAL -> Tank.team tk <> NEUTRAL ->
     tank_base_contact tk b = (tk, Base.capture b (Tank.team tk)) /\
     Base.team (Base.capture b (Tank.team tk)) = Tank.team tk) /\
  (forall (tk : Tank.t) (b : Base.t), Base.team b <> Tank.team tk -> Base.team b <> NEUTRAL ->
     tank_base_contact tk b = (tk, b)) /\
  option_map (fun tk => Resources.armor (Tank.resources tk)) (tank_at resupply_state 0) = Some 5 /\
  option_map Base.armor (base_at resupply_state 1) = Some 8 /\
  match _process_collisions resupply_state with
  | Some (_, s') =>
      option_map (fun tk => Resources.armor (Tank.resources tk)) (tank_at s' 0) = Some 6 /\
      option_map Base.armor (base_at s' 1) = Some 7
  | None => False
  end.
Proof.
  split; [|split; [|split; [|split; [|split]]]].
  - intros tk b Hteam. simpl.
    unfold tank_base_contact, Base.resupply_tank, spec_transfer.
    rewrite (proj2 (Team_beq_true _ _) Hteam).
    rewrite (proj2 (Team_beq_true _ _) (eq_sym Hteam)). simpl.
    split_ifs; rewrite ?Z.add_0_r, ?Z.sub_0_r; reflexivity.
  - intros tk b Hn Ht. unfold tank_base_contact.
    rewrite Hn. rewrite (proj2 (Team_beq_false NEUTRAL (Tank.team tk))) by congruence.
    simpl. split; reflexivity.
  - intros tk b Hne Hnn. unfold tank_base_contact.
    rewrite (proj2 (Team_beq_false _ _) Hne), (proj2 (Team_beq_false _ _) Hnn).
    reflexivity.
  - vm_compute. reflexivity.
  - vm_compute. reflexivity.
  - vm_compute. split; reflexivity.
Qed.

Lemma tank_base_contact_resolution_witness :
  tank_base_contact scenario_tank scenario_base =
    (Tank.set_resources scenario_tank
       {| Resources.armor := 6; Resources.shells := 40; Resources.mines := 40;
          Resources.wood := 0 |},
     Base.mk scenario_base TEAM_1 16 20 10 7 Config.BASE_RESUPPLY_RATE).
Proof.
  rewrite (proj1 tank_base_contact_resolution scenario_tank scenario_base eq_refl).
  vm_compute. reflexivity.
Defined.

(* ----------------------------------------------------------------- *)
(** ** The collision pass *)

Lemma shell_hits_app (a : nat) (l1 l2 : list event) :
  shell_hits a (l1 ++ l2) = (shell_hits a l1 + shell_hits a l2)%nat.
Proof. unfold shell_hits. rewrite filter_app, length_app. reflexivity. Qed.

Lemma shell_hits_one (a : nat) (ev : event) :
  shell_hits a [ev] = if decide (shell_event_src ev = Some a) then 1%nat else 0%nat.
Proof.
  unfold shell_hits. destruct (decide (shell_event_src ev = Some a)).
  - rewrite filter_cons_True by assumption. reflexivity.
  - rewrite filter_cons_False by assumption. reflexivity.
Qed.

Lemma store_no_live_shell (h : list Entity) (x : nat) (e : Entity) (a : nat) :
  not_live_shell e -> no_live_shell h a -> no_live_shell (<[x := e]> h) a.
Proof.
  intros He Hn sh Hl. destruct (decide (x = a)) as [->|Hne].
  - destruct (decide (a < length h)%nat) as [Hlt|Hge].
    + rewrite list_lookup_insert_eq in Hl by assumption.
      injection Hl as ->. exact He.
    + rewrite list_insert_ge in Hl by lia. exact (Hn sh Hl).
  - rewrite list_lookup_insert_ne in Hl by congruence. exact (Hn sh Hl).
Qed.

Lemma collision_inv_ext (L : list event) (s s' : GameState) :
  heap s' = heap s -> log s' = log s -> collision_inv L s -> collision_inv L s'.
Proof.
  intros Hh Hl (evs & Hlog & Hex & Hc). exists evs.
  rewrite Hh, Hl. auto.
Qed.

Lemma for_break_cases (xs : list nat) (body : nat -> M bool) (s s' : GameState) :
  (forall x s0 s1, body x s0 = Some (false, s1) -> s1 = s0) ->
  for_break xs body s = Some (tt, s') ->
  s' = s \/ exists x, In x xs /\ body x s = Some (true, s').
Proof.
  intros Hf. revert s. induction xs as [|x xs IH]; intros s H; simpl in H.
  - injection H as <-. left. reflexivity.
  - unfold bindM in H. destruct (body x s) as [[[|] s1]|] eqn:E.
    + injection H as <-. right. exists x. split; [left; reflexivity | exact E].
    + apply Hf in E. subst s1. destruct (IH s H) as [->|(y & Hy & Hb)].
      * left. reflexivity.
      * right. exists y. split; [right; exact Hy | exact Hb].
    + discriminate.
Qed.

Lemma bind_Some {A B} (m : M A) (f : A -> M B) (s : GameState) (r : B * GameState) :
  bindM m f s = Some r -> exists x s1, m s = Some (x, s1) /\ f x s1 = Some r.
Proof.
  unfold bindM. destruct (m s) as [[x s1]|]; [|discriminate].
  intros H. exists x, s1. auto.
Qed.

Lemma load_Some (a : nat) (s : GameState) (e : Entity) (s1 : GameState) :
  load a s = Some (e, s1) -> heap s !! a = Some e /\ s1 = s.
Proof.
  unfold load, lift. destruct (heap s !! a); [|discriminate].
  intros H. injection H as -> ->. auto.
Qed.

Section CollisionCategory.
Variable i : nat.

Lemma Rc_refl (s : GameState) : Rc i s s.
Proof. split; [auto|]. exists []. rewrite app_nil_r. auto. Qed.

Lemma Rc_trans (s1 s2 s3 : GameState) : Rc i s1 s2 -> Rc i s2 s3 -> Rc i s1 s3.
Proof.
  intros [H1 (e1 & L1 & F1)] [H2 (e2 & L2 & F2)]. split; [auto|].
  exists (e1 ++ e2). rewrite L2, L1, app_assoc. split; [reflexivity|].
  apply Forall_app. auto.
Qed.

Lemma rel_ret {A} (a : A) : rel (Rc i) (ret a).
Proof. intros s x s' H. injection H as _ <-. apply Rc_refl. Qed.

Lemma rel_gets {A} (f : GameState -> A) : rel (Rc i) (gets f).
Proof. intros s x s' H. injection H as _ <-. apply Rc_refl. Qed.

Lemma rel_lift {A} (o : option A) : rel (Rc i) (lift o).
Proof.
  intros s x s' H. unfold lift in H. destruct o; [|discriminate].
  injection H as _ <-. apply Rc_refl.
Qed.

Lemma rel_load (a : nat) : rel (Rc i) (load a).
Proof. intros s x s' H. apply load_Some in H as [_ ->]. apply Rc_refl. Qed.

Lemma rel_bind {A B} (m : M A) (f : A -> M B) :
  rel (Rc i) m -> (forall x, rel (Rc i) (f x)) -> rel (Rc i) (bindM m f).
Proof.
  intros Hm Hf s x s' H. apply bind_Some in H as (y & s1 & H1 & H2).
  eapply Rc_trans; [eapply Hm; exact H1 | eapply Hf; exact H2].
Qed.

Lemma rel_for_ (xs : list nat) (body : nat -> M unit) :
  (forall x, rel (Rc i) (body x)) -> rel (Rc i) (for_ xs body).
Proof.
  intros Hb. induction xs as [|x xs IH]; simpl.
  - apply rel_ret.
  - apply rel_bind; [apply Hb | intros _; exact IH].
Qed.

Lemma rel_for_break (xs : list nat) (body : nat -> M bool) :
  (forall x, rel (Rc i) (body x)) -> rel (Rc i) (for_break xs body).
Proof.
  intros Hb. induction xs as [|x xs IH]; simpl.
  - apply rel_ret.
  - apply rel_bind; [apply Hb | intros [|]; [apply rel_ret | exact IH]].
Qed.

Lemma rel_store (a : nat) (e : Entity) : not_live_shell e -> rel (Rc i) (store a e).
Proof.
  intros He s x s' H. injection H as _ <-. split.
  - intros L (evs & Hlog & Hex & Hc). exists evs. simpl.
    split; [exact Hlog|]. split; [exact Hex|].
    intros a'. destruct (Hc a') as [Hle Hn]. split; [exact Hle|].
    intros H1. apply store_no_live_shell; auto.
  - exists []. simpl. rewrite app_nil_r. auto.
Qed.

Lemma rel_set_map (g : GameMap) : rel (Rc i) (set_map g).
Proof.
  intros s x s' H. injection H as _ <-. split.
  - intros L. apply collision_inv_ext; reflexivity.
  - exists []. simpl. rewrite app_nil_r. auto.
Qed.

Lemma rel_emit (ev : event) :
  shell_event_src ev = None -> ev_excl ev -> ev_category ev = i ->
  rel (Rc i) (emit ev).
Proof.
  intros Hsrc Hex Hcat s x s' H. injection H as _ <-. split.
  - intros L (evs & Hlog & Hexs & Hc). exists (evs ++ [ev]). simpl.
    rewrite Hlog, app_assoc. split; [reflexivity|].
    split; [apply Forall_app; auto|].
    intros a. rewrite shell_hits_app, shell_hits_one, Hsrc.
    destruct (decide (None = Some a)) as [Hd|_]; [discriminate|].
    rewrite Nat.add_0_r. exact (Hc a).
  - exists [ev]. simpl. auto.
Qed.

Lemma rel_mine_detonate (a : nat) (mn : Mine.t) : rel (Rc i) (mine_detonate a mn).
Proof.
  unfold mine_detonate.
  repeat (apply rel_bind; [first [apply rel_lift | apply rel_gets | apply rel_set_map] | intros ?]).
  apply rel_store. reflexivity.
Qed.

(** The block run when a shell at [a] hits [o]: the shell was alive, so it
    had made no call yet; after the block it has made one and is dead. *)
Lemma shell_hit_block (a o : nat) (sh : Shell.t) (e_o : Entity) (ev : event)
    (s s' : GameState) :
  heap s !! a = Some (EShell sh) -> Shell.alive sh = true ->
  shell_event_src ev = Some a -> ev_excl ev -> ev_category ev = i ->
  not_live_shell e_o ->
  (emit ev ;;; store o e_o ;;; store a (EShell (Shell.destroy sh)) ;;; ret true) s
    = Some (true, s') ->
  Rc i s s'.
Proof.
  intros Ha Halive Hsrc Hex Hcat Ho H. injection H as <-. split.
  - intros L (evs & Hlog & Hexs & Hc). exists (evs ++ [ev]). simpl.
    rewrite Hlog, app_assoc. split; [reflexivity|].
    split; [apply Forall_app; auto|].
    assert (Hlen : (a < length (heap s))%nat) by (eapply lookup_lt_Some; exact Ha).
    intros a'. rewrite shell_hits_app, shell_hits_one, Hsrc.
    destruct (decide (Some a = Some a')) as [Heq|Hne].
    + injection Heq as <-.
      assert (H0 : shell_hits a evs = 0%nat).
      { destruct (Hc a) as [Hle Hn].
        destruct (shell_hits a evs) as [|[|k]] eqn:E; [reflexivity| |lia].
        rewrite (Hn eq_refl sh Ha) in Halive. discriminate. }
      rewrite H0. split; [lia|]. intros _ sh' Hl.
      rewrite list_lookup_insert_eq in Hl by (rewrite length_insert; exact Hlen).
      injection Hl as <-. reflexivity.
    + rewrite Nat.add_0_r. destruct (Hc a') as [Hle Hn]. split; [exact Hle|].
      intros H1. apply store_no_live_shell; [reflexivity|].
      apply store_no_live_shell; auto.
  - exists [ev]. simpl. auto.
Qed.
End CollisionCategory.

(** Case analysis of the [if]s of a hypothesis. *)
Ltac if_cases H :=
  repeat match type of H with
  | context [if ?c then _ else _] => destruct c; cbv beta iota in H
  end.

(** Decompose a [rel] goal along the structure of the monadic code. *)
Ltac rel_go :=
  repeat match goal with
  | |- rel _ (bindM _ _) => apply rel_bind; [|intros ?]
  | |- rel _ (ret _) => apply rel_ret
  | |- rel _ (gets _) => apply rel_gets
  | |- rel _ (load _) => apply rel_load
  | |- rel _ (lift _) => apply rel_lift
  | |- rel _ (store _ _) => apply rel_store; exact I
  | |- rel _ (emit _) => apply rel_emit; [reflexivity | exact I | reflexivity]
  | |- rel _ (mine_detonate _ _) => apply rel_mine_detonate
  | |- rel _ (for_ _ _) => apply rel_for_; intros ?
  | |- rel _ (for_break _ _) => apply rel_for_break; intros ?
  | |- rel _ (if ?c then _ else _) => destruct c; cbv beta iota
  | e : Entity |- _ => destruct e; cbv beta iota
  | |- context [tank_base_contact ?tk ?b] => destruct (tank_base_contact tk b)
  end.

Lemma shell_vs_tank_rel (a : nat) : rel (Rc 1) (shell_vs_tank a).
Proof.
  intros s u s' H. unfold shell_vs_tank in H.
  apply bind_Some in H as (e & s1 & Hl & H). apply load_Some in Hl as [Ha ->].
  destruct e as [tk|sh|mn|p|b];
    try (cbv [ret] in H; injection H as _ <-; apply Rc_refl).
  destruct (Shell.alive sh) eqn:Halive;
    [|cbv [ret] in H; injection H as _ <-; apply Rc_refl].
  apply bind_Some in H as (es & s2 & Hg & H). cbv [gets] in Hg.
  injection Hg as <- <-. destruct u.
  apply for_break_cases in H as [->|(o & _ & Hb)].
  - apply Rc_refl.
  - apply bind_Some in Hb as (eo & s3 & Hl & Hb). apply load_Some in Hl as [Ho ->].
    destruct eo as [tk| | | |]; try (cbv [ret] in Hb; discriminate).
    destruct (Tank.alive tk) eqn:E1; [|cbv [ret] in Hb; discriminate].
    destruct (Tank.id tk =? Shell.owner_id sh) eqn:E2; [cbv [ret] in Hb; discriminate|].
    destruct (Team_beq (Tank.team tk) (Shell.team sh)) eqn:E3;
      [cbv [ret] in Hb; discriminate|].
    destruct (within _ _ _ _ _) eqn:E4; [|cbv [ret] in Hb; discriminate].
    eapply shell_hit_block with (ev := ShellHitTank a o sh tk)
      (e_o := ETank (Tank.take_damage tk (Shell.damage sh)));
      [exact Ha | exact Halive | reflexivity | | reflexivity | exact I | exact Hb].
    simpl. split; [exact E1|]. split.
    + apply Z.eqb_neq. exact E2.
    + apply Team_beq_false. exact E3.
  - intros o s0 s1 Hb.
    apply bind_Some in Hb as (eo & s3 & Hl & Hb). apply load_Some in Hl as [_ ->].
    destruct eo; if_cases Hb; cbv [ret] in Hb;
      try (injection Hb as <-; reflexivity).
    cbv [bindM emit store modify] in Hb. discriminate.
Qed.

Lemma shell_vs_pillbox_rel (a : nat) : rel (Rc 2) (shell_vs_pillbox a).
Proof.
  intros s u s' H. unfold shell_vs_pillbox in H.
  apply bind_Some in H as (e & s1 & Hl & H). apply load_Some in Hl as [Ha ->].
  destruct e as [tk|sh|mn|p|b];
    try (cbv [ret] in H; injection H as _ <-; apply Rc_refl).
  destruct (Shell.alive sh) eqn:Halive;
    [|cbv [ret] in H; injection H as _ <-; apply Rc_refl].
  apply bind_Some in H as (es & s2 & Hg & H). cbv [gets] in Hg.
  injection Hg as <- <-. destruct u.
  apply for_break_cases in H as [->|(o & _ & Hb)].
  - apply Rc_refl.
  - apply bind_Some in Hb as (eo & s3 & Hl & Hb). apply load_Some in Hl as [Ho ->].
    destruct eo as [| | |p|]; try (cbv [ret] in Hb; discriminate).
    destruct (Pillbox.alive p && Pillbox.active p) eqn:E1;
      [|cbv [ret] in Hb; discriminate].
    apply andb_true_iff in E1 as [E1 E1'].
    destruct (Team_beq (Pillbox.team p) (Shell.team sh)) eqn:E3;
      [cbv [ret] in Hb; discriminate|].
    destruct (within _ _ _ _ _) eqn:E4; [|cbv [ret] in Hb; discriminate].
    eapply shell_hit_block with (ev := ShellHitPillbox a o sh p)
      (e_o := EPillbox (Pillbox.take_damage p (Shell.damage sh)));
      [exact Ha | exact Halive | reflexivity | | reflexivity | exact I | exact Hb].
    simpl. split; [exact E1|]. split; [exact E1'|].
    apply Team_beq_false. exact E3.
  - intros o s0 s1 Hb.
    apply bind_Some in Hb as (eo & s3 & Hl & Hb). apply load_Some in Hl as [_ ->].
    destruct eo; if_cases Hb; cbv [ret] in Hb;
      try (injection Hb as <-; reflexivity).
    cbv [bindM emit store modify] in Hb. discriminate.
Qed.

Lemma tank_vs_mine_rel (a : nat) : rel (Rc 3) (tank_vs_mine a).
Proof. unfold tank_vs_mine. rel_go. Qed.

Lemma tank_vs_base_rel (a : nat) : rel (Rc 4) (tank_vs_base a).
Proof. unfold tank_vs_base. rel_go. Qed.

(** C1: in one call of [_process_collisions], the damage calls are logged
    in the order Shell-Tank, Shell-Pillbox, Tank-Mine, Tank-Base; every
    shell makes at most one damage call (on a Tank or on a Pillbox); and no
    damage call hits a Tank whose id is the shell's owner_id or whose team
    is the shell's team, nor a Pillbox that is inactive or of the shell's
    team. *)
Theorem process_collisions_exclusive (s s' : GameState) :
  _process_collisions s = Some (tt, s') ->
  exists e1 e2 e3 e4,
    log s' = log s ++ e1 ++ e2 ++ e3 ++ e4 /\
    Forall (fun e => ev_category e = 1%nat) e1 /\
    Forall (fun e => ev_category e = 2%nat) e2 /\
    Forall (fun e => ev_category e = 3%nat) e3 /\
    Forall (fun e => ev_category e = 4%nat) e4 /\
    Forall ev_excl (e1 ++ e2 ++ e3 ++ e4) /\
    forall a, (shell_hits a (e1 ++ e2 ++ e3 ++ e4) <= 1)%nat.
Proof.
  intros H. unfold _process_collisions in H.
  apply bind_Some in H as (es1 & t0 & Hg & H). cbv [gets] in Hg. injection Hg as <- <-.
  apply bind_Some in H as (u1 & s1 & H1 & H).
  apply bind_Some in H as (es2 & t1 & Hg & H). cbv [gets] in Hg. injection Hg as <- <-.
  apply bind_Some in H as (u2 & s2 & H2 & H).
  apply bind_Some in H as (es3 & t2 & Hg & H). cbv [gets] in Hg. injection Hg as <- <-.
  apply bind_Some in H as (u3 & s3 & H3 & H).
  apply bind_Some in H as (es4 & t3 & Hg & H4). cbv [gets] in Hg. injection Hg as <- <-.
  destruct (rel_for_ 1 _ _ shell_vs_tank_rel _ _ _ H1) as [I1 (e1 & L1 & F1)].
  destruct (rel_for_ 2 _ _ shell_vs_pillbox_rel _ _ _ H2) as [I2 (e2 & L2 & F2)].
  destruct (rel_for_ 3 _ _ tank_vs_mine_rel _ _ _ H3) as [I3 (e3 & L3 & F3)].
  destruct (rel_for_ 4 _ _ tank_vs_base_rel _ _ _ H4) as [I4 (e4 & L4 & F4)].
  assert (H0 : collision_inv (log s) s).
  { exists []. rewrite app_nil_r. split; [reflexivity|]. split; [constructor|].
    intros a. unfold shell_hits. rewrite filter_nil. simpl.
    split; [lia | discriminate]. }
  destruct (I4 _ (I3 _ (I2 _ (I1 _ H0)))) as (evs & Hlog & Hex & Hc).
  assert (Hl : log s' = log s ++ e1 ++ e2 ++ e3 ++ e4).
  { rewrite L4, L3, L2, L1. rewrite !app_assoc. reflexivity. }
  rewrite Hl in Hlog. apply app_inv_head in Hlog. rewrite <- Hlog in Hex, Hc.
  exists e1, e2, e3, e4. repeat split; auto.
  intros a. apply (Hc a).
Qed.

Definition shell_state_after : GameState :=
  match _process_collisions shell_state with
  | Some (_, s') => s'
  | None => shell_state
  end.

Lemma process_collisions_exclusive_witness :
  exists e1 e2 e3 e4,
    log shell_state_after = log shell_state ++ e1 ++ e2 ++ e3 ++ e4 /\
    Forall (fun e => ev_category e = 1%nat) e1 /\
    Forall (fun e => ev_category e = 2%nat) e2 /\
    Forall (fun e => ev_category e = 3%nat) e3 /\
    Forall (fun e => ev_category e = 4%nat) e4 /\
    Forall ev_excl (e1 ++ e2 ++ e3 ++ e4) /\
    forall a, (shell_hits a (e1 ++ e2 ++ e3 ++ e4) <= 1)%nat.
Proof.
  apply (process_collisions_exclusive shell_state shell_state_after).
  vm_compute. reflexivity.
Defined.

(* ----------------------------------------------------------------- *)
(** ** The pending-spawn buffer *)

#[export] Instance R_upd_PO : PO R_upd.
Proof.
  split.
  - intros s. split; [reflexivity|]. split; [lia|].
    exists []. rewrite app_nil_r. auto.
  - intros s1 s2 s3 (E1 & L1 & n1 & P1 & F1) (E2 & L2 & n2 & P2 & F2).
    split; [congruence|]. split; [lia|].
    exists (n1 ++ n2). rewrite P2, P1, app_assoc. split; [reflexivity|].
    apply Forall_app. split; [exact F1|].
    eapply Forall_impl; [exact F2|]. simpl. intros a Ha. lia.
Qed.

#[export] Instance R_col_PO : PO R_col.
Proof. split; unfold R_col; intuition congruence. Qed.

#[export] Instance R_cam_PO : PO R_cam.
Proof. split; unfold R_cam, R_col; intuition congruence. Qed.

Section RelGeneric.
Context (R : GameState -> GameState -> Prop) `{PO R}.

Lemma grel_ret {A} (a : A) : rel R (ret a).
Proof. intros s x s' E. injection E as _ <-. apply po_refl. Qed.

Lemma grel_gets {A} (f : GameState -> A) : rel R (gets f).
Proof. intros s x s' E. injection E as _ <-. apply po_refl. Qed.

Lemma grel_lift {A} (o : option A) : rel R (lift o).
Proof.
  intros s x s' E. unfold lift in E. destruct o; [|discriminate].
  injection E as _ <-. apply po_refl.
Qed.

Lemma grel_load (a : nat) : rel R (load a).
Proof. intros s x s' E. apply load_Some in E as [_ ->]. apply po_refl. Qed.

Lemma grel_bind {A B} (m : M A) (f : A -> M B) :
  rel R m -> (forall x, rel R (f x)) -> rel R (bindM m f).
Proof.
  intros Hm Hf s x s' E. apply bind_Some in E as (y & s1 & E1 & E2).
  eapply po_trans; [eapply Hm; exact E1 | eapply Hf; exact E2].
Qed.

Lemma grel_for_ (xs : list nat) (body : nat -> M unit) :
  (forall x, rel R (body x)) -> rel R (for_ xs body).
Proof.
  intros Hb. induction xs as [|x xs IH]; simpl.
  - apply grel_ret.
  - apply grel_bind; [apply Hb | intros _; exact IH].
Qed.

Lemma grel_for_break (xs : list nat) (body : nat -> M bool) :
  (forall x, rel R (body x)) -> rel R (for_break xs body).
Proof.
  intros Hb. induction xs as [|x xs IH]; simpl.
  - apply grel_ret.
  - apply grel_bind; [apply Hb | intros [|]; [apply grel_ret | exact IH]].
Qed.

Lemma grel_find_target `{Libm} (p : Pillbox.t) : rel R (_find_target p).
Proof.
  unfold _find_target. apply grel_bind; [apply grel_gets|]. intros es.
  generalize (@None Tank.t) PrimFloat.infinity.
  induction es as [|o es IH]; intros best bd; simpl.
  - apply grel_ret.
  - apply grel_bind; [apply grel_load|]. intros e.
    destruct e; try apply IH.
    destruct (negb _); [|apply IH].
    destruct (_ && _); apply IH.
Qed.
End RelGeneric.

(** One structural step on a [rel] goal. *)
Ltac grel_step :=
  cbv zeta;
  match goal with
  | |- rel _ (bindM _ _) => apply grel_bind; [exact _ | | intros ?]
  | |- rel _ (ret _) => apply grel_ret; exact _
  | |- rel _ (gets _) => apply grel_gets; exact _
  | |- rel _ (load _) => apply grel_load; exact _
  | |- rel _ (lift _) => apply grel_lift; exact _
  | |- rel _ (for_ _ _) => apply grel_for_; [exact _ | intros ?]
  | |- rel _ (for_break _ _) => apply grel_for_break; [exact _ | intros ?]
  | |- rel _ (_find_target _) => apply grel_find_target; exact _
  | |- rel _ (if ?c then _ else _) => destruct c; cbv beta iota
  | e : Entity |- _ => destruct e; cbv beta iota
  | o : option Tank.t |- _ => destruct o; cbv beta iota
  | o : option nat |- _ => destruct o; cbv beta iota
  | |- context [tank_base_contact ?tk ?b] => destruct (tank_base_contact tk b)
  | |- context [Pillbox._fire_at ?p ?tk ?n] =>
      destruct (Pillbox._fire_at p tk n) as [[? ?] ?]
  end.

Lemma upd_modify (f : GameState -> GameState) :
  (forall s, R_upd s (f s)) -> rel R_upd (modify f).
Proof. intros Hf s x s' E. injection E as _ <-. apply Hf. Qed.

Lemma upd_store (a : nat) (e : Entity) : rel R_upd (store a e).
Proof.
  apply upd_modify. intros s. split; [reflexivity|]. simpl.
  rewrite length_insert. split; [lia|]. exists []. rewrite app_nil_r. auto.
Qed.

Lemma upd_set_map (g : GameMap) : rel R_upd (set_map g).
Proof.
  apply upd_modify. intros s. split; [reflexivity|]. simpl.
  split; [lia|]. exists []. rewrite app_nil_r. auto.
Qed.

Lemma upd_set_next_id (n : Z) : rel R_upd (set_next_id n).
Proof.
  apply upd_modify. intros s. split; [reflexivity|]. simpl.
  split; [lia|]. exists []. rewrite app_nil_r. auto.
Qed.

Lemma upd_random_random : rel R_upd random_random.
Proof.
  intros s x s' E. injection E as _ <-. split; [reflexivity|]. simpl.
  split; [lia|]. exists []. rewrite app_nil_r. auto.
Qed.

(** [game_state.add_entity(shell)] of a new object. *)
Lemma upd_alloc_add (e : Entity) : rel R_upd (sa <-- alloc e ;; add_entity sa).
Proof.
  intros s x s' E. cbv [bindM alloc add_entity modify] in E.
  injection E as _ <-. split; [reflexivity|]. simpl.
  rewrite length_app. simpl. split; [lia|].
  exists [length (heap s)]. split; [reflexivity|].
  constructor; [lia | constructor].
Qed.

Ltac upd_leaf :=
  match goal with
  | |- rel _ (bindM (alloc _) _) => apply upd_alloc_add
  | |- rel _ (store _ _) => apply upd_store
  | |- rel _ (set_map _) => apply upd_set_map
  | |- rel _ (set_next_id _) => apply upd_set_next_id
  | |- rel _ random_random => apply upd_random_random
  end.

Section FrameLemmas.
Context {LM : Libm}.

Lemma update_entities_upd : rel R_upd update_entities.
Proof.
  unfold update_entities, entity_update, shell_update, pillbox_update.
  repeat (first [upd_leaf | grel_step]).
Qed.
End FrameLemmas.

Lemma col_modify (f : GameState -> GameState) :
  (forall s, R_col s (f s)) -> rel R_col (modify f).
Proof. intros Hf s x s' E. injection E as _ <-. apply Hf. Qed.

Ltac col_leaf :=
  match goal with
  | |- rel _ (store _ _) => apply col_modify; intros ?; split; reflexivity
  | |- rel _ (emit _) => apply col_modify; intros ?; split; reflexivity
  | |- rel _ (set_map _) => apply col_modify; intros ?; split; reflexivity
  | |- rel _ (mine_detonate _ _) => unfold mine_detonate
  end.

Lemma process_collisions_col : rel R_col _process_collisions.
Proof.
  unfold _process_collisions, shell_vs_tank, shell_vs_pillbox, tank_vs_mine,
    tank_vs_base.
  repeat (first [col_leaf | grel_step]).
Qed.

Lemma keep_alive_spec (es : list nat) (s : GameState) (r : list nat) (s' : GameState) :
  keep_alive es s = Some (r, s') ->
  s' = s /\
  forall a, In a r <-> In a es /\ exists e, heap s !! a = Some e /\ entity_alive e = true.
Proof.
  revert r s'. induction es as [|b es IH]; intros r s' E; simpl in E.
  - injection E as <- <-. split; [reflexivity|]. intros a. simpl.
    split; [intros []| intros [[] _]].
  - apply bind_Some in E as (e & s1 & E1 & E). apply load_Some in E1 as [Hb ->].
    apply bind_Some in E as (rest & s2 & E2 & E).
    destruct (IH _ _ E2) as [-> Hr].
    injection E as <- <-. split; [reflexivity|]. intros a.
    destruct (entity_alive e) eqn:Ea; simpl.
    + split.
      * intros [<-|Ha]; [split; [left; reflexivity | exists e; auto]|].
        apply Hr in Ha as [Ha He]. split; [right; exact Ha | exact He].
      * intros [[<-|Ha] He]; [left; reflexivity|]. right. apply Hr. auto.
    + split.
      * intros Ha. apply Hr in Ha as [Ha He]. split; [right; exact Ha | exact He].
      * intros [[<-|Ha] (e' & He' & Ea')].
        -- rewrite Hb in He'. injection He' as <-. congruence.
        -- apply Hr. split; [exact Ha|]. exists e'. auto.
Qed.

Lemma remove_dead_spec (s s' : GameState) :
  remove_dead_entities s = Some (tt, s') ->
  heap s' = heap s /\ pending_entities s' = pending_entities s /\
  forall a, In a (entities s') <->
    In a (entities s) /\ exists e, heap s !! a = Some e /\ entity_alive e = true.
Proof.
  intros E. unfold remove_dead_entities in E.
  apply bind_Some in E as (es & s1 & E1 & E). cbv [gets] in E1. injection E1 as <- <-.
  apply bind_Some in E as (r & s2 & E2 & E).
  destruct (keep_alive_spec _ _ _ _ E2) as [-> Hr].
  cbv [set_entities modify] in E. injection E as <-. simpl. auto.
Qed.

Section FrameCamera.
Context {LM : Libm}.

Lemma update_camera_cam : rel R_cam _update_camera.
Proof.
  unfold _update_camera.
  repeat (first
    [ match goal with
      | |- rel _ (modify _) =>
          intros ? ? ? E; injection E as _ <-; split; [|split]; reflexivity
      end
    | grel_step ]).
Qed.
End FrameCamera.

(** C2 (counterexample): a shell spawned by the pillbox of [pill_state] in
    frame 1 is pending, not live, during frame 1; frame 2 merges it, it hits
    the tank and [remove_dead_entities] drops it, so at the start of the
    third (not paused, not game-over) frame it is neither live nor pending:
    it is not an element of [entities] from the next frame onward. *)
Lemma C2_spawned_shell_dropped_later :
  let f1 := after_update (LM := approx_libm) pill_state in
  let f2 := after_update (LM := approx_libm) f1 in
  update (LM := approx_libm) pill_state <> None /\
  update (LM := approx_libm) f1 <> None /\
  In 2%nat (pending_entities f1) /\ ~ In 2%nat (entities f1) /\
  shell_hits 2 (log f2) = 1%nat /\
  paused f2 = false /\ game_over f2 = false /\
  ~ In 2%nat (entities f2 ++ pending_entities f2).
Proof.
  vm_compute. repeat split; try discriminate; try (left; reflexivity);
    intros Hin; repeat destruct Hin as [Hin|Hin]; first [discriminate | contradiction].
Qed.

Section FrameTheorems.
Context {LM : Libm}.

(** C2 (amended): a paused or game-over [update] changes nothing.  A
    running [update] first merges the pending buffer into [entities] and
    clears it; the entity-update phase keeps [entities] and leaves in the
    buffer only addresses of objects created during the phase, which are
    not in [entities]; the collision pass sees the same [entities]; the
    buffer is carried to the next frame, and after the frame [entities]
    keeps exactly its members that are still alive. *)
Theorem update_pending_buffer (s s' : GameState) :
  valid_refs s -> update s = Some (tt, s') ->
  if paused s || game_over s then s' = s
  else exists s1 s2 s3,
    merge_pending s = Some (tt, s1) /\
    entities s1 = entities s ++ pending_entities s /\
    pending_entities s1 = [] /\
    update_entities s1 = Some (tt, s2) /\
    entities s2 = entities s1 /\
    (forall a, In a (pending_entities s2) ->
       (length (heap s) <= a)%nat /\ ~ In a (entities s2)) /\
    _process_collisions s2 = Some (tt, s3) /\
    entities s3 = entities s2 /\
    pending_entities s' = pending_entities s2 /\
    (forall a, In a (entities s') <->
       In a (entities s2) /\
       exists e, heap s' !! a = Some e /\ entity_alive e = true).
Proof.
  intros Hv H. unfold update in H.
  apply bind_Some in H as (stop & t0 & Hg & H). cbv [gets] in Hg.
  injection Hg as <- <-.
  destruct (paused s || game_over s) eqn:Estop.
  { cbv [ret] in H. injection H as <-. reflexivity. }
  apply bind_Some in H as ([] & s1 & H1 & H).
  apply bind_Some in H as ([] & s2 & H2 & H).
  apply bind_Some in H as ([] & s3 & H3 & H).
  apply bind_Some in H as ([] & s4 & H4 & H).
  pose proof H1 as H1'. cbv [merge_pending modify] in H1'.
  injection H1' as Hs1.
  assert (E1 : entities s1 = entities s ++ pending_entities s) by (subst s1; reflexivity).
  assert (P1 : pending_entities s1 = []) by (subst s1; reflexivity).
  assert (L1 : heap s1 = heap s) by (subst s1; reflexivity).
  destruct (update_entities_upd _ _ _ H2) as (E2 & _ & new & P2 & F2).
  destruct (process_collisions_col _ _ _ H3) as (E3 & P3).
  destruct (remove_dead_spec _ _ H4) as (L4 & P4 & Hr).
  assert (Hc : R_cam s4 s').
  { apply bind_Some in H as (pl & s5 & H5 & H). cbv [gets] in H5.
    injection H5 as <- <-.
    destruct (player s4) as [pa|].
    - apply bind_Some in H as (e & s6 & H6 & H). apply load_Some in H6 as [_ ->].
      destruct (entity_alive e).
      + exact (update_camera_cam _ _ _ H).
      + cbv [ret] in H. injection H as <-. apply po_refl.
    - cbv [ret] in H. injection H as <-. apply po_refl. }
  destruct Hc as (L5 & E5 & P5).
  exists s1, s2, s3.
  split; [exact H1|]. split; [exact E1|]. split; [exact P1|].
  split; [exact H2|]. split; [exact E2|].
  split.
  { intros a Ha. rewrite P2, P1 in Ha. simpl in Ha.
    rewrite Forall_forall in F2.
    pose proof (F2 a (proj2 (list_elem_of_In _ _) Ha)) as Hge.
    rewrite L1 in Hge. split; [exact Hge|].
    rewrite E2, E1. intros Hin.
    unfold valid_refs in Hv. rewrite Forall_forall in Hv.
    pose proof (Hv a (proj2 (list_elem_of_In _ _) Hin)).
    lia. }
  split; [exact H3|]. split; [exact E3|].
  split; [rewrite P5, P4, P3; reflexivity|].
  intros a. rewrite E5, Hr, E3, L5, L4. reflexivity.
Qed.
End FrameTheorems.

Lemma update_pending_buffer_witness :
  exists s1 s2 s3,
    merge_pending pill_state = Some (tt, s1) /\
    entities s1 = entities pill_state ++ pending_entities pill_state /\
    pending_entities s1 = [] /\
    update_entities (LM := approx_libm) s1 = Some (tt, s2) /\
    entities s2 = entities s1 /\
    (forall a, In a (pending_entities s2) ->
       (length (heap pill_state) <= a)%nat /\ ~ In a (entities s2)) /\
    _process_collisions s2 = Some (tt, s3) /\
    entities s3 = entities s2 /\
    pending_entities (after_update (LM := approx_libm) pill_state) =
      pending_entities s2 /\
    (forall a, In a (entities (after_update (LM := approx_libm) pill_state)) <->
       In a (entities s2) /\
       exists e, heap (after_update (LM := approx_libm) pill_state) !! a = Some e /\
                 entity_alive e = true).
Proof.
  apply (update_pending_buffer (LM := approx_libm) pill_state
           (after_update (LM := approx_libm) pill_state)).
  - unfold valid_refs. simpl.
    repeat (constructor; [simpl; lia|]). constructor.
  - vm_compute. reflexivity.
Defined.

(* ================================================================= *)
(** ** Further properties of the entity classes *)

Ltac zbool :=
  repeat match goal with
  | H : (_ && _)%bool = true |- _ => apply andb_true_iff in H as [? ?]
  | H : (_ && _)%bool = false |- _ => apply andb_false_iff in H as [?|?]
  | H : (_ || _)%bool = true |- _ => apply orb_true_iff in H as [?|?]
  | H : (_ || _)%bool = false |- _ => apply orb_false_iff in H as [? ?]
  | H : (_ <? _) = true |- _ => apply Z.ltb_lt in H
  | H : (_ <? _) = false |- _ => apply Z.ltb_ge in H
  | H : (_ <=? _) = true |- _ => apply Z.leb_le in H
  | H : (_ <=? _) = false |- _ => apply Z.leb_gt in H
  | H : (_ =? _) = true |- _ => apply Z.eqb_eq in H
  | H : (_ =? _) = false |- _ => apply Z.eqb_neq in H
  end.

Lemma tank_update_iter (tk : Tank.t) (k : nat) :
  0 <= Tank.fire_cooldown tk ->
  Tank.fire_cooldown (Nat.iter k Tank.update tk) =
    Z.max 0 (Tank.fire_cooldown tk - Z.of_nat k) /\
  Tank.resources (Nat.iter k Tank.update tk) = Tank.resources tk /\
  Tank.fire_rate (Nat.iter k Tank.update tk) = Tank.fire_rate tk.
Proof.
  intros H0. induction k as [|k [IHc [IHr IHf]]].
  - cbn. split; [lia | auto].
  - change (Nat.iter (S k) Tank.update tk) with (Tank.update (Nat.iter k Tank.update tk)).
    set (u := Nat.iter k Tank.update tk) in *.
    unfold Tank.update.
    destruct (0 <? Tank.fire_cooldown u) eqn:E;
      destruct (0 <? Tank.lgm_respawn_timer u);
      cbn; zbool; rewrite ?IHr, ?IHf; repeat split; auto; lia.
Qed.

Section TankExtra.
Context {LM : Libm}.

(** X1: after a successful [fire], the tank can fire again exactly when
    [fire_rate] calls of [Tank.update] have passed and a shell is left:
    after [k] updates [fire] returns a shell iff [fire_rate <= k] and the
    tank had at least two shells before the first shot. *)
Theorem tank_fire_reload (tk : Tank.t) (nid : Z) (sh : Shell.t) (tk' : Tank.t)
    (n' m : Z) (k : nat) :
  Tank.fire tk nid = (Some sh, tk', n') -> 0 <= Tank.fire_rate tk ->
  is_Some (fst (fst (Tank.fire (Nat.iter k Tank.update tk') m))) <->
    Tank.fire_rate tk <= Z.of_nat k /\ 1 < Resources.shells (Tank.resources tk).
Proof.
  intros E Hr. unfold Tank.fire in E.
  destruct ((0 <? Tank.fire_cooldown tk) || (Resources.shells (Tank.resources tk) <=? 0))
    eqn:C; [discriminate|].
  cbn in E. injection E as _ <- _.
  destruct (tank_update_iter
    (Tank.mk tk (Tank.x tk) (Tank.y tk) (Tank.alive tk)
       {| Resources.armor := Resources.armor (Tank.resources tk);
          Resources.shells := Resources.shells (Tank.resources tk) - 1;
          Resources.mines := Resources.mines (Tank.resources tk);
          Resources.wood := Resources.wood (Tank.resources tk) |}
       (Tank.is_moving tk) (Tank.lgm_deployed tk) (Tank.lgm_respawn_timer tk)
       (Tank.fire_rate tk)) k ltac:(cbn; lia)) as [Hc [Hs _]].
  unfold Tank.fire at 1. rewrite Hc, Hs. cbn.
  destruct (Z.ltb_spec 0 (Z.max 0 (Tank.fire_rate tk - Z.of_nat k)));
    destruct (Z.leb_spec (Resources.shells (Tank.resources tk) - 1) 0);
    cbn; split;
    first [ intros [? Hx]; discriminate | intros _; lia
          | intros _; eexists; reflexivity | intros; lia ].
Qed.

(** X4: placing mines [n] times in a row places [min n mines] of them
    (none when the stock is not positive): the stock drops by that many,
    the id counter advances by that many, and the other resources are
    kept. *)
Theorem place_mine_repeat (tk : Tank.t) (nid : Z) (n : nat) :
  let r := Tank.resources tk in
  let placed := Z.min (Z.of_nat n) (Z.max 0 (Resources.mines r)) in
  let '(tk', nid') := run_ops (repeat OpPlaceMine n) (tk, nid) in
  Resources.mines (Tank.resources tk') = Resources.mines r - placed /\
  nid' = nid + placed /\
  Resources.armor (Tank.resources tk') = Resources.armor r /\
  Resources.shells (Tank.resources tk') = Resources.shells r /\
  Resources.wood (Tank.resources tk') = Resources.wood r.
Proof.
  cbv zeta. unfold run_ops. revert tk nid.
  induction n as [|n IH]; intros tk nid; simpl.
  - lia.
  - unfold Tank.place_mine.
    destruct (Resources.mines (Tank.resources tk) <=? 0) eqn:E; cbn.
    + specialize (IH tk nid). unfold run_op in IH.
      destruct (fold_left _ _ _) as [tk' nid']. zbool. lia.
    + specialize (IH (Tank.set_resources tk
        {| Resources.armor := Resources.armor (Tank.resources tk);
           Resources.shells := Resources.shells (Tank.resources tk);
           Resources.mines := Resources.mines (Tank.resources tk) - 1;
           Resources.wood := Resources.wood (Tank.resources tk) |}) (nid + 1)).
      destruct (fold_left _ _ _) as [tk' nid']. cbn in IH. zbool. lia.
Qed.
End TankExtra.

(** X2: [n + 1] calls of [Tank.resupply] add [n + 1] armor, [5 (n + 1)]
    shells and [2 (n + 1)] mines, each capped at its maximum, and keep the
    wood. *)
Theorem tank_resupply_iter (tk : Tank.t) (n : nat) :
  let r := Tank.resources tk in
  let r' := Tank.resources (Nat.iter (S n) Tank.resupply tk) in
  Resources.armor r' = Z.min Config.TANK_MAX_ARMOR (Resources.armor r + Z.of_nat (S n)) /\
  Resources.shells r' = Z.min Config.TANK_MAX_SHELLS (Resources.shells r + 5 * Z.of_nat (S n)) /\
  Resources.mines r' = Z.min Config.TANK_MAX_MINES (Resources.mines r + 2 * Z.of_nat (S n)) /\
  Resources.wood r' = Resources.wood r.
Proof.
  cbv zeta. induction n as [|n IH].
  - cbn. unfold Config.TANK_MAX_ARMOR, Config.TANK_MAX_SHELLS, Config.TANK_MAX_MINES. lia.
  - change (Nat.iter (S (S n)) Tank.resupply tk)
      with (Tank.resupply (Nat.iter (S n) Tank.resupply tk)).
    destruct IH as [Ha [Hs [Hm Hw]]].
    set (u := Nat.iter (S n) Tank.resupply tk) in *. clearbody u.
    unfold Tank.resupply at 1. cbn. rewrite Ha, Hs, Hm, Hw.
    unfold Config.TANK_MAX_ARMOR, Config.TANK_MAX_SHELLS, Config.TANK_MAX_MINES in *.
    lia.
Qed.

(** X3: damage adds up: for a non-negative second amount, [take_damage a]
    then [take_damage b] is [take_damage (a + b)]; and a tank is alive
    after [take_damage a] iff it was alive and its armor minus [a] is
    positive. *)
Theorem tank_take_damage_additive (tk : Tank.t) (a b : Z) :
  0 <= b ->
  Tank.take_damage (Tank.take_damage tk a) b = Tank.take_damage tk (a + b) /\
  Tank.alive (Tank.take_damage tk a) =
    Tank.alive tk && (0 <? Resources.armor (Tank.resources tk) - a).
Proof.
  intros Hb. unfold Tank.take_damage. cbn. rewrite Z.sub_add_distr.
  destruct (Z.ltb_spec 0 (Resources.armor (Tank.resources tk) - a));
    repeat match goal with |- context [if ?c then _ else _] => destruct c eqn:? end;
    cbn in *; zbool; try lia; split;
    first [ rewrite andb_false_r; reflexivity | rewrite andb_true_r; reflexivity
          | reflexivity ].
Qed.

(** X5: the base stock bounds (shells in [0, 40], mines in [0, 20], armor in
    [0, 16]) hold for a new base and are kept by [Base.update],
    [Base.resupply_tank] with any tank, [Base.take_damage], [Base.capture]
    and a Tank-Base contact. *)
Theorem base_stock_bounds (b : Base.t) (tk : Tank.t) (n nid : Z) (t : Team)
    (x y : float) :
  base_stock_ok (fst (Base.new nid x y t)) /\
  (base_stock_ok b ->
   base_stock_ok (Base.update b) /\
   base_stock_ok (snd (fst (Base.resupply_tank b tk))) /\
   base_stock_ok (Base.take_damage b n) /\
   base_stock_ok (Base.capture b t) /\
   base_stock_ok (snd (tank_base_contact tk b))).
Proof.
  assert (Hres : base_stock_ok b -> base_stock_ok (snd (fst (Base.resupply_tank b tk)))).
  { unfold base_stock_ok, Base.resupply_tank. intros H.
    destruct (negb _); [exact H|]. cbv zeta.
    repeat match goal with |- context [if ?c then _ else _] => destruct c eqn:? end;
      cbn; zbool; unfold Config.TANK_MAX_ARMOR, Config.TANK_MAX_SHELLS,
      Config.TANK_MAX_MINES in *; lia. }
  split; [unfold base_stock_ok; cbn; lia|]. intros H.
  split; [|split; [exact (Hres H)|split; [|split]]].
  - unfold base_stock_ok, Base.update in *.
    destruct (_ <=? 0); cbn; lia.
  - unfold base_stock_ok, Base.take_damage in *. destruct (_ <=? 0); exact H.
  - exact H.
  - unfold tank_base_contact.
    destruct (Team_beq _ _).
    + destruct (Base.resupply_tank b tk) as [[d b'] tk'] eqn:E. cbn.
      specialize (Hres H). cbn in Hres. exact Hres.
    + destruct (Team_beq _ _); exact H.
Qed.

(** X6: [Base.update] restocks once every [regen_timer] calls: for a
    timer [t >= 1], the first [t - 1] calls only count the timer down and
    keep the stock, and the [t]-th call adds one shell, mine and armor
    (capped at 40, 20, 16) and resets the timer to [BASE_RESUPPLY_RATE]. *)
Theorem base_update_period (b : Base.t) :
  1 <= Base.regen_timer b ->
  (forall k, (k < Z.to_nat (Base.regen_timer b))%nat ->
     Nat.iter k Base.update b =
       Base.mk b (Base.team b) (Base.health b) (Base.shells b) (Base.mines b)
         (Base.armor b) (Base.regen_timer b - Z.of_nat k)) /\
  Nat.iter (Z.to_nat (Base.regen_timer b)) Base.update b =
    Base.mk b (Base.team b) (Base.health b) (Z.min 40 (Base.shells b + 1))
      (Z.min 20 (Base.mines b + 1)) (Z.min 16 (Base.armor b + 1))
      Config.BASE_RESUPPLY_RATE.
Proof.
  intros Ht.
  assert (Hk : forall k, (k < Z.to_nat (Base.regen_timer b))%nat ->
     Nat.iter k Base.update b =
       Base.mk b (Base.team b) (Base.health b) (Base.shells b) (Base.mines b)
         (Base.armor b) (Base.regen_timer b - Z.of_nat k)).
  { induction k as [|k IH]; intros Hlt.
    - destruct b; unfold Base.mk; cbn. f_equal. lia.
    - change (Nat.iter (S k) Base.update b) with (Base.update (Nat.iter k Base.update b)).
      rewrite IH by lia. unfold Base.update. cbn.
      destruct (Z.leb_spec (Base.regen_timer b - Z.of_nat k - 1) 0); [lia|].
      unfold Base.mk. cbn. f_equal. lia. }
  split; [exact Hk|].
  destruct (Z.to_nat (Base.regen_timer b)) as [|k0] eqn:E; [lia|].
  change (Nat.iter (S k0) Base.update b) with (Base.update (Nat.iter k0 Base.update b)).
  rewrite Hk by lia. unfold Base.update. cbn.
  destruct (Z.leb_spec (Base.regen_timer b - Z.of_nat k0 - 1) 0); [|lia].
  reflexivity.
Qed.


(** X8: [Base.resupply_tank] only moves resources between the base and the
    tank: each of armor, shells and mines has the same tank-plus-base total
    before and after, the wood and the other fields of the tank, and the
    base's team, health and timer are kept; the returned flag is true iff
    the tank's resources changed; a tank of another team gets
    [(False, base, tank)] back with nothing changed. *)
Theorem resupply_tank_conserves (b : Base.t) (tk : Tank.t) :
  (Team_beq (Tank.team tk) (Base.team b) = false ->
   Base.resupply_tank b tk = (false, b, tk)) /\
  let '(done, b', tk') := Base.resupply_tank b tk in
  let r := Tank.resources tk in
  let r' := Tank.resources tk' in
  Resources.armor r' + Base.armor b' = Resources.armor r + Base.armor b /\
  Resources.shells r' + Base.shells b' = Resources.shells r + Base.shells b /\
  Resources.mines r' + Base.mines b' = Resources.mines r + Base.mines b /\
  Resources.wood r' = Resources.wood r /\
  tk' = Tank.set_resources tk r' /\
  Base.team b' = Base.team b /\ Base.health b' = Base.health b /\
  Base.regen_timer b' = Base.regen_timer b /\
  (done = true <-> Resources.armor r' <> Resources.armor r \/
                   Resources.shells r' <> Resources.shells r \/
                   Resources.mines r' <> Resources.mines r).
Proof.
  split.
  - intros E. unfold Base.resupply_tank. rewrite E. reflexivity.
  - unfold Base.resupply_tank.
    destruct (Team_beq (Tank.team tk) (Base.team b)); cbn.
    + repeat match goal with |- context [if ?c then _ else _] => destruct c eqn:? end;
        cbn; zbool; unfold Config.TANK_MAX_ARMOR, Config.TANK_MAX_SHELLS,
        Config.TANK_MAX_MINES in *;
        (repeat split; try lia); intros Hd;
        first [reflexivity | discriminate | lia | exfalso; lia].
    + destruct tk; cbn; repeat split;
        first [ lia | reflexivity | intros Hd; discriminate
              | intros [Hd|[Hd|Hd]]; congruence ].
Qed.

(** X9: a pillbox's aggression stays within [0, 8] and its cooldown stays
    non-negative under [take_damage] (by a non-negative amount), [capture]
    and [_fire_at], which sets the cooldown to at least 5. *)
Theorem pill_ok_kept {LM : Libm} (p : Pillbox.t) (n : Z) (t : Team) (tk : Tank.t)
    (nid : Z) :
  pill_ok p ->
  pill_ok (Pillbox.take_damage p n) /\ pill_ok (Pillbox.capture p t) /\
  pill_ok (fst (fst (Pillbox._fire_at p tk nid))) /\
  5 <= Pillbox.fire_cooldown (fst (fst (Pillbox._fire_at p tk nid))).
Proof.
  unfold pill_ok, Pillbox.take_damage, Pillbox.capture, Pillbox._fire_at. intros Hp.
  destruct (_ <=? 0); cbn; lia.
Qed.

(* ----------------------------------------------------------------- *)
(** ** Concrete instances of the further properties *)

Lemma tank_fire_reload_witness :
  exists sh tk' n',
    Tank.fire (LM := approx_libm) (fst (Tank.new 0 100 100 TEAM_1)) 1 = (Some sh, tk', n') /\
    ~ is_Some (fst (fst (Tank.fire (LM := approx_libm) (Nat.iter 9 Tank.update tk') 2))) /\
    is_Some (fst (fst (Tank.fire (LM := approx_libm) (Nat.iter 10 Tank.update tk') 2))).
Proof.
  eexists _, _, _. split; [reflexivity|]. split.
  - rewrite (tank_fire_reload (LM := approx_libm) (fst (Tank.new 0 100 100 TEAM_1)) 1
               _ _ _ 2 9 ltac:(reflexivity) ltac:(simpl; lia)).
    simpl. unfold Config.TANK_MAX_SHELLS. lia.
  - apply (tank_fire_reload (LM := approx_libm) (fst (Tank.new 0 100 100 TEAM_1)) 1
               _ _ _ 2 10 ltac:(reflexivity) ltac:(simpl; lia)).
    simpl. unfold Config.TANK_MAX_SHELLS. lia.
Defined.

Lemma tank_take_damage_additive_witness :
  Tank.take_damage (Tank.take_damage scenario_tank 3) 4 = Tank.take_damage scenario_tank 7 /\
  Tank.alive (Tank.take_damage scenario_tank 3) =
    Tank.alive scenario_tank && (0 <? Resources.armor (Tank.resources scenario_tank) - 3).
Proof. exact (tank_take_damage_additive scenario_tank 3 4 ltac:(lia)). Defined.

Lemma base_stock_bounds_witness :
  base_stock_ok (Base.update scenario_base) /\
  base_stock_ok (snd (fst (Base.resupply_tank scenario_base scenario_tank))) /\
  base_stock_ok (Base.take_damage scenario_base 3) /\
  base_stock_ok (Base.capture scenario_base TEAM_2) /\
  base_stock_ok (snd (tank_base_contact scenario_tank scenario_base)).
Proof.
  apply (proj2 (base_stock_bounds scenario_base scenario_tank 3 0 TEAM_2 0 0)).
  unfold base_stock_ok. simpl. lia.
Defined.

Lemma base_update_period_witness :
  Nat.iter (Z.to_nat (Base.regen_timer scenario_base)) Base.update scenario_base =
    Base.mk scenario_base (Base.team scenario_base) (Base.health scenario_base)
      (Z.min 40 (Base.shells scenario_base + 1)) (Z.min 20 (Base.mines scenario_base + 1))
      (Z.min 16 (Base.armor scenario_base + 1)) Config.BASE_RESUPPLY_RATE.
Proof. exact (proj2 (base_update_period scenario_base ltac:(vm_compute; discriminate))). Defined.


Lemma resupply_tank_conserves_witness :
  Base.resupply_tank (fst (Base.new 1 110 100 TEAM_2)) scenario_tank =
    (false, fst (Base.new 1 110 100 TEAM_2), scenario_tank).
Proof.
  apply (proj1 (resupply_tank_conserves (fst (Base.new 1 110 100 TEAM_2)) scenario_tank)).
  reflexivity.
Defined.

Lemma pill_ok_kept_witness :
  pill_ok (Pillbox.take_damage (fst (Pillbox.new 0 200 200 TEAM_2)) 3) /\
  pill_ok (Pillbox.capture (fst (Pillbox.new 0 200 200 TEAM_2)) TEAM_1) /\
  pill_ok (fst (fst (Pillbox._fire_at (LM := approx_libm)
    (fst (Pillbox.new 0 200 200 TEAM_2)) scenario_tank 5))) /\
  5 <= Pillbox.fire_cooldown (fst (fst (Pillbox._fire_at (LM := approx_libm)
    (fst (Pillbox.new 0 200 200 TEAM_2)) scenario_tank 5))).
Proof.
  apply (pill_ok_kept (LM := approx_libm) (fst (Pillbox.new 0 200 200 TEAM_2)) 3 TEAM_1
           scenario_tank 5).
  unfold pill_ok. simpl. lia.
Defined.

(* ----------------------------------------------------------------- *)
(** ** Further properties of the frame phases *)

#[export] Instance eq_PO : PO (@eq GameState).
Proof. split; [reflexivity | intros ? ? ? -> ->; reflexivity]. Qed.

Lemma find_target_pure `{Libm} (p : Pillbox.t) (s s' : GameState) (r : option Tank.t) :
  _find_target p s = Some (r, s') -> s' = s.
Proof. intros E. symmetry. exact (@grel_find_target eq _ _ p s r s' E). Qed.

Lemma new_GameMap_wf (w h : Z) : wf_map (new_GameMap w h).
Proof.
  split; simpl; [apply repeat_length|].
  apply Forall_forall. intros row Hr. apply list_elem_of_In, repeat_spec in Hr.
  subst row. apply repeat_length.
Qed.

Lemma lookup_heap_insert (h : list Entity) (a : nat) (e e0 : Entity) :
  h !! a = Some e0 -> <[a := e]> h !! a = Some e.
Proof.
  intros Ha. apply list_lookup_insert_eq. apply lookup_lt_Some in Ha. exact Ha.
Qed.

Section PillboxExtra.
Context {LM : Libm}.

(** X10: one [Pillbox.update] of the object at address [a] keeps its
    aggression within [0, 8] and its cooldown non-negative, never changes
    its team, health, activity or position, touches no other object and
    leaves [entities] alone; the only other effect is at most one new shell,
    of the pillbox's team and owned by it, appended to the pending
    buffer. *)
Theorem pillbox_update_keeps (a : nat) (p : Pillbox.t) (s s' : GameState) :
  heap s !! a = Some (EPillbox p) -> pill_ok p ->
  pillbox_update a p s = Some (tt, s') ->
  (exists p', heap s' !! a = Some (EPillbox p') /\ pill_ok p' /\
     Pillbox.team p' = Pillbox.team p /\ Pillbox.health p' = Pillbox.health p /\
     Pillbox.active p' = Pillbox.active p /\
     Pillbox.x p' = Pillbox.x p /\ Pillbox.y p' = Pillbox.y p) /\
  (forall b, b <> a -> (b < length (heap s))%nat -> heap s' !! b = heap s !! b) /\
  entities s' = entities s /\
  (pending_entities s' = pending_entities s \/
   exists sh, pending_entities s' = pending_entities s ++ [length (heap s)] /\
     heap s' !! length (heap s) = Some (EShell sh) /\
     Shell.team sh = Pillbox.team p /\ Shell.owner_id sh = Pillbox.id p /\
     Shell.alive sh = true).
Proof.
  intros Ha [Hag Hcd] E. unfold pillbox_update in E.
  destruct (negb (Pillbox.active p)) eqn:Eact.
  { cbv [ret] in E. injection E as <-.
    split; [exists p; unfold pill_ok; repeat split; auto; lia|].
    split; [auto|]. split; [reflexivity|]. left. reflexivity. }
  apply bind_Some in E as (ag & s1 & E1 & E).
  assert (H1 : heap s1 = heap s /\ entities s1 = entities s /\
               pending_entities s1 = pending_entities s /\ 0 <= ag <= 8).
  { destruct (0 <? Pillbox.aggression p) eqn:Eg.
    - apply bind_Some in E1 as (r & s0 & Er & E1). cbv [random_random] in Er.
      injection Er as <- <-. cbv [ret] in E1. injection E1 as <- <-. simpl.
      repeat split; auto; destruct (flt _ 0.01); zbool; lia.
    - cbv [ret] in E1. injection E1 as <- <-. auto. }
  clear E1. destruct H1 as (Hh1 & He1 & Hp1 & Hag1).
  apply bind_Some in E as ([] & s2 & E2 & E). cbv [store modify] in E2.
  injection E2 as <-.
  set (cd := if 0 <? Pillbox.fire_cooldown p then Pillbox.fire_cooldown p - 1
             else Pillbox.fire_cooldown p) in *.
  assert (Hcd' : 0 <= cd) by (unfold cd; destruct (0 <? _) eqn:?; zbool; lia).
  set (p1 := Pillbox.mk p (Pillbox.team p) (Pillbox.health p) cd (Pillbox.active p) ag) in *.
  assert (Hla : (a < length (heap s))%nat) by (apply lookup_lt_Some in Ha; exact Ha).
  destruct (cd <=? 0).
  - apply bind_Some in E as (target & s3 & E3 & E).
    apply find_target_pure in E3. subst s3.
    destruct target as [tk|].
    + apply bind_Some in E as (nid & s4 & E4 & E). cbv [gets] in E4.
      injection E4 as <- <-.
      cbv beta iota zeta delta [Pillbox._fire_at Shell.new bindM store modify
        set_next_id alloc add_entity] in E.
      injection E as <-.
      simpl. rewrite Hh1, He1, Hp1, !length_insert.
      split; [|split; [|split; [reflexivity|]]].
      * eexists. split.
        { rewrite lookup_app_l by (rewrite !length_insert; exact Hla).
          rewrite list_lookup_insert_eq by (rewrite length_insert; exact Hla).
          reflexivity. }
        unfold pill_ok. cbn. repeat split; auto; lia.
      * intros b Hb Hlb.
        rewrite lookup_app_l by (rewrite !length_insert; exact Hlb).
        rewrite !list_lookup_insert_ne by congruence. reflexivity.
      * right. eexists. split; [reflexivity|].
        rewrite lookup_app_r by (rewrite !length_insert; lia).
        rewrite !length_insert, Nat.sub_diag. cbn. auto.
    + cbv [ret] in E. injection E as <-. simpl. rewrite Hh1, He1, Hp1.
      split; [|split; [|split; [reflexivity|left; reflexivity]]].
      * eexists. split; [apply (lookup_heap_insert _ _ _ _ Ha)|].
        unfold pill_ok. cbn. repeat split; auto; lia.
      * intros b Hb _. apply list_lookup_insert_ne. congruence.
  - cbv [ret] in E. injection E as <-. simpl. rewrite Hh1, He1, Hp1.
    split; [|split; [|split; [reflexivity|left; reflexivity]]].
    + eexists. split; [apply (lookup_heap_insert _ _ _ _ Ha)|].
      unfold pill_ok. cbn. repeat split; auto; lia.
    + intros b Hb _. apply list_lookup_insert_ne. congruence.
Qed.

End PillboxExtra.

(** X12: on a well-formed map, [Mine.detonate] of the mine at address [a]
    whose position has tile coordinates [(tx, ty)] succeeds, marks the mine
    dead and turns exactly the cell [(tx, ty)] into CRATER when it is in
    bounds (an out-of-bounds detonation changes no cell); the map stays
    well-formed with the same size. *)
Theorem mine_detonate_crater (a : nat) (mn : Mine.t) (s : GameState) (tx ty : Z) :
  (a < length (heap s))%nat -> wf_map (game_map s) ->
  int_floordiv (Mine.x mn) Config.TILE_SIZE = Some tx ->
  int_floordiv (Mine.y mn) Config.TILE_SIZE = Some ty ->
  exists s', mine_detonate a mn s = Some (tt, s') /\
    heap s' !! a = Some (EMine (Mine.destroy mn)) /\
    (forall b, b <> a -> heap s' !! b = heap s !! b) /\
    wf_map (game_map s') /\ width (game_map s') = width (game_map s) /\
    height (game_map s') = height (game_map s) /\
    forall x y, get_tile (game_map s') x y =
      if in_bounds (game_map s) tx ty && (x =? tx) && (y =? ty) then Some CRATER
      else get_tile (game_map s) x y.
Proof.
  intros Hla Hwf Hx Hy. unfold mine_detonate, bindM, lift, gets. rewrite Hx, Hy.
  destruct (in_bounds (game_map s) tx ty) eqn:Hb.
  - destruct (set_tile_in _ _ _ CRATER Hwf Hb)
      as (g' & Hs & Hw & Hh & Hwf' & Hk & Ho).
    rewrite Hs. cbv [set_map store modify]. eexists. split; [reflexivity|]. simpl.
    split; [apply list_lookup_insert_eq; exact Hla|].
    split; [intros b Hb'; apply list_lookup_insert_ne; congruence|].
    split; [exact Hwf'|]. split; [exact Hw|]. split; [exact Hh|].
    intros x y. simpl.
    destruct (Z.eqb_spec x tx); destruct (Z.eqb_spec y ty); subst; simpl;
      first [exact Hk | apply Ho; congruence].
  - assert (Hs : set_tile (game_map s) tx ty CRATER = Some (game_map s))
      by (unfold set_tile; rewrite Hb; reflexivity).
    rewrite Hs. cbv [set_map store modify]. eexists. split; [reflexivity|]. simpl.
    split; [apply list_lookup_insert_eq; exact Hla|].
    split; [intros b Hb'; apply list_lookup_insert_ne; congruence|].
    split; [exact Hwf|]. split; [reflexivity|]. split; [reflexivity|].
    intros x y. reflexivity.
Qed.




Lemma damage_tile_cases (g : GameMap) (x y : Z) :
  wf_map g -> in_bounds g x y = true ->
  (exists k, get_tile g x y = Some k /\ k <> WALL /\ k <> DAMAGED_WALL /\
             k <> FOREST /\ k <> SWAMP /\ damage_tile g x y = Some g) \/
  (exists k k' g', get_tile g x y = Some k /\
     (k = WALL /\ k' = DAMAGED_WALL \/ k = DAMAGED_WALL /\ k' = RUBBLE \/
      k = FOREST /\ k' = GRASS \/ k = SWAMP /\ k' = CRATER) /\
     damage_tile g x y = Some g' /\ wf_map g' /\ width g' = width g /\
     height g' = height g /\ get_tile g' x y = Some k' /\
     (forall x' y', (x', y') <> (x, y) -> get_tile g' x' y' = get_tile g x' y')).
Proof.
  intros Hwf Hb.
  destruct (wf_get_tile g x y Hwf Hb) as (row & k & _ & _ & Hk).
  unfold damage_tile. rewrite Hk. simpl.
  destruct k;
    try solve [left; eexists; split; [reflexivity|]; repeat split; discriminate].
  all: right; match goal with
       | Hk : get_tile _ _ _ = Some ?k0 |- context [set_tile _ _ _ ?k'] =>
           destruct (set_tile_in g x y k' Hwf Hb) as (g' & Hs & Hw & Hh & Hwf' & Hk' & Ho);
           exists k0, k', g';
           split; [reflexivity|]; split; [tauto|]; split; [exact Hs|];
           split; [exact Hwf'|]; split; [exact Hw|]; split; [exact Hh|];
           split; [exact Hk' | exact Ho]
       end.
Qed.

Lemma in_bounds_same (g g' : GameMap) (x y : Z) :
  width g' = width g -> height g' = height g -> in_bounds g' x y = in_bounds g x y.
Proof. intros Hw Hh. unfold in_bounds. rewrite Hw, Hh. reflexivity. Qed.

(** X14: repeated hits on one cell of a well-formed map reach a fixed
    point after at most two: the third [damage_tile] returns the map it is
    given.  All three calls succeed, the map stays well-formed and no other
    cell changes (so a WALL becomes passable RUBBLE after exactly two hits
    and then stays). *)
Theorem damage_tile_stable (g : GameMap) (x y : Z) :
  wf_map g ->
  exists g1 g2, damage_tile g x y = Some g1 /\ damage_tile g1 x y = Some g2 /\
    damage_tile g2 x y = Some g2 /\ wf_map g2 /\
    (forall x' y', (x', y') <> (x, y) -> get_tile g2 x' y' = get_tile g x' y').
Proof.
  intros Hwf. destruct (in_bounds g x y) eqn:Hb.
  2:{ assert (Hd : damage_tile g x y = Some g).
      { unfold damage_tile, get_tile. rewrite Hb. simpl.
        unfold set_tile. rewrite Hb. reflexivity. }
      exists g, g. rewrite Hd. auto. }
  destruct (damage_tile_cases g x y Hwf Hb) as [(k & Hk & _ & _ & _ & _ & Hd)
    | (k & k' & g' & Hk & Hkk & Hd & Hwf' & Hw & Hh & Hk' & Ho)].
  { exists g, g. rewrite Hd. auto. }
  assert (Hb' : in_bounds g' x y = true) by (rewrite (in_bounds_same g g'); auto).
  destruct (damage_tile_cases g' x y Hwf' Hb') as [(k2 & Hk2 & _ & _ & _ & _ & Hd2)
    | (k2 & k2' & g'' & Hk2 & Hkk2 & Hd2 & Hwf'' & Hw2 & Hh2 & Hk2' & Ho2)].
  { exists g', g'. rewrite Hd, Hd2. auto. }
  assert (Hb'' : in_bounds g'' x y = true)
    by (rewrite (in_bounds_same g' g''); auto).
  destruct (damage_tile_cases g'' x y Hwf'' Hb'') as [(k3 & Hk3 & Hn1 & Hn2 & Hn3 & Hn4 & Hd3)
    | (k3 & k3' & g3 & Hk3 & Hkk3 & _)].
  - exists g', g''. rewrite Hd, Hd2, Hd3. split; [auto|]. split; [auto|].
    split; [auto|]. split; [auto|]. intros x' y' Hne.
    rewrite Ho2 by exact Hne. apply Ho. exact Hne.
  - exfalso. rewrite Hk' in Hk2. injection Hk2 as <-.
    rewrite Hk2' in Hk3. injection Hk3 as <-.
    destruct Hkk as [[-> ->]|[[-> ->]|[[-> ->]|[-> ->]]]];
    destruct Hkk2 as [[? ?]|[[? ?]|[[? ?]|[? ?]]]]; try discriminate; subst;
    destruct Hkk3 as [[? ?]|[[? ?]|[[? ?]|[? ?]]]]; discriminate.
Qed.

Lemma pillbox_update_keeps_witness :
  exists s', pillbox_update (LM := approx_libm) 0 (fst (Pillbox.new 0 200 200 TEAM_2))
               pill_state = Some (tt, s') /\
    exists p', heap s' !! 0%nat = Some (EPillbox p') /\ pill_ok p'.
Proof.
  set (s' := match pillbox_update (LM := approx_libm) 0 (fst (Pillbox.new 0 200 200 TEAM_2))
                     pill_state with Some (_, s1) => s1 | None => pill_state end).
  assert (E : pillbox_update (LM := approx_libm) 0 (fst (Pillbox.new 0 200 200 TEAM_2))
                pill_state = Some (tt, s')) by (vm_compute; reflexivity).
  exists s'. split; [exact E|].
  destruct (pillbox_update_keeps (LM := approx_libm) 0 (fst (Pillbox.new 0 200 200 TEAM_2))
              pill_state s' ltac:(reflexivity) ltac:(unfold pill_ok; simpl; lia) E)
    as [(p' & H1 & H2 & _) _].
  exists p'. split; [exact H1 | exact H2].
Defined.


Lemma mine_detonate_crater_witness :
  exists s', mine_detonate 0 (fst (Mine.new 0 40 40 TEAM_2 false))
      (state_of [EMine (fst (Mine.new 0 40 40 TEAM_2 false))] [0%nat] 1) = Some (tt, s') /\
    get_tile (game_map s') 2 2 = Some CRATER.
Proof.
  destruct (mine_detonate_crater 0 (fst (Mine.new 0 40 40 TEAM_2 false))
      (state_of [EMine (fst (Mine.new 0 40 40 TEAM_2 false))] [0%nat] 1) 2 2
      ltac:(simpl; lia) (new_GameMap_wf _ _) ltac:(vm_compute; reflexivity)
      ltac:(vm_compute; reflexivity)) as (s' & E & _ & _ & _ & _ & _ & Ht).
  exists s'. split; [exact E|]. rewrite Ht. reflexivity.
Defined.


Lemma damage_tile_stable_witness :
  exists g1 g2, damage_tile wall_map 5 5 = Some g1 /\ damage_tile g1 5 5 = Some g2 /\
    damage_tile g2 5 5 = Some g2 /\ wf_map g2 /\
    (forall x' y', (x', y') <> (5, 5) -> get_tile g2 x' y' = get_tile wall_map x' y').
Proof.
  apply damage_tile_stable.
  unfold wall_map.
  destruct (set_tile_in (new_GameMap Config.MAP_WIDTH Config.MAP_HEIGHT) 5 5 WALL
              (new_GameMap_wf _ _) ltac:(reflexivity)) as (g' & Hs & _ & _ & Hwf & _).
  rewrite Hs. exact Hwf.
Defined.

(* ================================================================= *)
(** ** Map generation *)

Lemma py_index_in (n : nat) (i : Z) :
  0 <= i < Z.of_nat n -> py_index n i = Some (Z.to_nat i).
Proof.
  intros Hi. unfold py_index.
  destruct (i <? 0) eqn:E; zbool; [lia|].
  destruct ((0 <=? i) && (i <? Z.of_nat n)) eqn:E2; [reflexivity|].
  zbool; lia.
Qed.

Lemma bind_ok {A B} (m : M A) (k : A -> M B) (s s1 : GameState) (a : A) :
  m s = Some (a, s1) -> bindM m k s = k a s1.
Proof. unfold bindM. intros ->. reflexivity. Qed.

Lemma store_tile_in (s : GameState) (x y : Z) (k : TileType) :
  wf_map (game_map s) -> in_bounds (game_map s) x y = true ->
  exists g', store_tile x y k s =
      Some (tt, GS_with s (heap s) (entities s) (pending_entities s) g'
                  (camera_x s) (camera_y s) (next_id s) (rand_pos s) (log s)) /\
    width g' = width (game_map s) /\ height g' = height (game_map s) /\
    _dirty g' = _dirty (game_map s) /\ wf_map g' /\
    forall x' y', get_tile g' x' y' =
      if (x' =? x) && (y' =? y) then Some k else get_tile (game_map s) x' y'.
Proof.
  intros Hwf Hb.
  destruct (set_tile_in (game_map s) x y k Hwf Hb) as (g1 & Hs & Hw & Hh & Hwf1 & Hk & Ho).
  unfold set_tile in Hs. rewrite Hb in Hs.
  destruct (tiles_store (tiles (game_map s)) x y k) as [ts|] eqn:Ets; [|discriminate].
  cbn in Hs. injection Hs as <-.
  exists {| width := width (game_map s); height := height (game_map s); tiles := ts;
            _dirty := _dirty (game_map s) |}.
  split; [|split; [reflexivity|split; [reflexivity|split; [reflexivity|split]]]].
  - assert (E : tiles_setitem (tiles (game_map s)) x y k =
                tiles_store (tiles (game_map s)) x y k).
    { pose proof Hb as Hb'. apply in_bounds_true in Hb'.
      destruct (wf_row _ x y Hwf Hb) as [row [Hr Hl]].
      destruct Hwf as [Hlh _].
      unfold tiles_setitem, tiles_store.
      rewrite (py_index_in (length (tiles (game_map s))) y) by lia.
      cbn. rewrite Hr. cbn. rewrite (py_index_in (length row) x) by lia.
      destruct (lookup_lt_is_Some_2 row (Z.to_nat x)) as [c Hc]; [lia|].
      rewrite Hc. reflexivity. }
    unfold store_tile, bindM, gets, lift. rewrite E, Ets. reflexivity.
  - exact Hwf1.
  - intros x' y'.
    destruct ((x' =? x) && (y' =? y)) eqn:Exy.
    + zbool. subst. exact Hk.
    + apply Ho. intros [=]. zbool; congruence.
Qed.

Ltac cells_tac :=
  repeat match goal with
         | |- context [if ?c then _ else _] => destruct c eqn:?
         end;
  zbool; subst;
  first [ reflexivity | lia
        | (do 3 f_equal; lia) | (exfalso; lia) ].

Lemma gen_cells_from (s : GameState) (w h y x0 : Z) (n : nat) :
  wf_map (game_map s) -> width (game_map s) = w -> height (game_map s) = h ->
  1 <= x0 -> x0 + Z.of_nat n = w -> 0 <= y < h ->
  exists g', for_Z (py_range_from x0 n) (fun x => generate_cell w h x y) s =
    Some (tt, GS_with s (heap s) (entities s) (pending_entities s) g'
      (camera_x s) (camera_y s) (next_id s)
      (Nat.add (rand_pos s) (if (y =? 0) || (y =? h - 1) then O else Nat.pred n))
      (log s)) /\
    width g' = w /\ height g' = h /\ _dirty g' = _dirty (game_map s) /\ wf_map g' /\
    forall x' y', get_tile g' x' y' =
      if (y' =? y) && (x0 <=? x') && (x' <? w) then
        Some (if (y =? 0) || (y =? h - 1) || (x' =? w - 1) then WALL
              else random_terrain (rand s (Nat.add (rand_pos s) (Z.to_nat (x' - x0)))))
      else get_tile (game_map s) x' y'.
Proof.
  revert s x0. induction n as [|n IH]; intros s x0 Hwf Hw Hh Hx0 Hn Hy.
  - exists (game_map s). split.
    + cbn [py_range_from for_Z Nat.pred]. unfold ret.
      destruct ((y =? 0) || (y =? h - 1)); rewrite Nat.add_0_r; destruct s; reflexivity.
    + split; [exact Hw|split; [exact Hh|split; [reflexivity|split; [exact Hwf|]]]].
      intros x' y'. destruct ((y' =? y) && (x0 <=? x') && (x' <? w)) eqn:E;
        [zbool; lia|reflexivity].
  - cbn [py_range_from for_Z].
    assert (Hb : in_bounds (game_map s) x0 y = true) by (apply in_bounds_true; lia).
    unfold generate_cell at 1.
    destruct ((x0 =? 0) || (y =? 0) || (x0 =? w - 1) || (y =? h - 1)) eqn:Ec.
    + destruct (store_tile_in s x0 y WALL Hwf Hb) as (g1 & E1 & Hw1 & Hh1 & Hd1 & Hwf1 & Ht1).
      rewrite (bind_ok _ _ _ _ _ E1).
      destruct (IH (GS_with s (heap s) (entities s) (pending_entities s) g1
                   (camera_x s) (camera_y s) (next_id s) (rand_pos s) (log s)) (x0 + 1))
        as (g' & E' & Hw' & Hh' & Hd' & Hwf' & Ht'); [cbn; try lia; try assumption ..|].
      exists g'. split; [|split; [exact Hw'|split; [exact Hh'|split; [cbn in Hd'; congruence|split; [exact Hwf'|]]]]].
      * rewrite E'. cbn. unfold GS_with. do 3 f_equal.
        destruct ((y =? 0) || (y =? h - 1)) eqn:Ey; zbool; lia.
      * intros x' y'. rewrite Ht'. cbn [game_map GS_with]. rewrite Ht1.
        cells_tac.
    + set (s0 := GS_with s (heap s) (entities s) (pending_entities s) (game_map s)
                   (camera_x s) (camera_y s) (next_id s) (S (rand_pos s)) (log s)).
      destruct (store_tile_in s0 x0 y (random_terrain (rand s (rand_pos s))) Hwf Hb)
        as (g1 & E1 & Hw1 & Hh1 & Hd1 & Hwf1 & Ht1).
      assert (E2 : bindM random_random (fun r => store_tile x0 y (random_terrain r)) s =
                   Some (tt, GS_with s0 (heap s0) (entities s0) (pending_entities s0) g1
                     (camera_x s0) (camera_y s0) (next_id s0) (rand_pos s0) (log s0)))
        by exact E1.
      unfold s0 in Hw1, Hh1, Hd1, Ht1; cbn in Hw1, Hh1, Hd1, Ht1.
      rewrite (bind_ok _ _ _ _ _ E2).
      destruct (IH (GS_with s0 (heap s0) (entities s0) (pending_entities s0) g1
                   (camera_x s0) (camera_y s0) (next_id s0) (rand_pos s0) (log s0)) (x0 + 1))
        as (g' & E' & Hw' & Hh' & Hd' & Hwf' & Ht'); [cbn; try lia; try assumption ..|].
      exists g'. split; [|split; [exact Hw'|split; [exact Hh'|split; [cbn in Hd'; congruence|split; [exact Hwf'|]]]]].
      * rewrite E'. cbn. unfold GS_with. do 3 f_equal.
        destruct ((y =? 0) || (y =? h - 1)) eqn:Ey; zbool; lia.
      * intros x' y'. rewrite Ht'. unfold s0. cbn [game_map GS_with rand rand_pos].
        rewrite Ht1. cells_tac.
Qed.

Lemma gen_row (s : GameState) (w h y : Z) :
  wf_map (game_map s) -> width (game_map s) = w -> height (game_map s) = h ->
  1 <= w -> 0 <= y < h ->
  exists g', for_Z (py_range 0 w) (fun x => generate_cell w h x y) s =
    Some (tt, GS_with s (heap s) (entities s) (pending_entities s) g'
      (camera_x s) (camera_y s) (next_id s)
      (Nat.add (rand_pos s) (if (y =? 0) || (y =? h - 1) then O else Z.to_nat (w - 2)))
      (log s)) /\
    width g' = w /\ height g' = h /\ _dirty g' = _dirty (game_map s) /\ wf_map g' /\
    forall x' y', get_tile g' x' y' =
      if (y' =? y) && (0 <=? x') && (x' <? w) then
        Some (if (x' =? 0) || (y =? 0) || (x' =? w - 1) || (y =? h - 1) then WALL
              else random_terrain (rand s (Nat.add (rand_pos s) (Z.to_nat (x' - 1)))))
      else get_tile (game_map s) x' y'.
Proof.
  intros Hwf Hw Hh Hw1 Hy.
  unfold py_range. replace (Z.to_nat (w - 0)) with (S (Z.to_nat (w - 1))) by lia.
  cbn [py_range_from for_Z].
  change (py_range_from (0 + 1)) with (py_range_from 1).
  assert (Hb : in_bounds (game_map s) 0 y = true) by (apply in_bounds_true; lia).
  destruct (store_tile_in s 0 y WALL Hwf Hb) as (g1 & E1 & Hw1' & Hh1 & Hd1 & Hwf1 & Ht1).
  assert (E0 : generate_cell w h 0 y = store_tile 0 y WALL) by reflexivity.
  rewrite E0, (bind_ok _ _ _ _ _ E1).
  destruct (gen_cells_from (GS_with s (heap s) (entities s) (pending_entities s) g1
              (camera_x s) (camera_y s) (next_id s) (rand_pos s) (log s))
              w h y 1 (Z.to_nat (w - 1)))
    as (g' & E' & Hw' & Hh' & Hd' & Hwf' & Ht'); [cbn; try lia; try assumption ..|].
  exists g'. split; [|split; [exact Hw'|split; [exact Hh'|split; [cbn in Hd'; congruence|split; [exact Hwf'|]]]]].
  - rewrite E'. cbn. unfold GS_with. do 3 f_equal.
    destruct ((y =? 0) || (y =? h - 1)); lia.
  - intros x' y'. rewrite Ht'. cbn [game_map GS_with rand rand_pos].
    rewrite Ht1. cells_tac.
Qed.

Lemma gen_rows_from (s : GameState) (w h y0 : Z) (n : nat) :
  wf_map (game_map s) -> width (game_map s) = w -> height (game_map s) = h ->
  1 <= w -> 0 <= y0 -> y0 + Z.of_nat n = h ->
  exists g', for_Z (py_range_from y0 n)
               (fun y => for_Z (py_range 0 w) (fun x => generate_cell w h x y)) s =
    Some (tt, GS_with s (heap s) (entities s) (pending_entities s) g'
      (camera_x s) (camera_y s) (next_id s)
      (Nat.add (rand_pos s) (Z.to_nat (h - 1 - Z.max 1 y0) * Z.to_nat (w - 2)))
      (log s)) /\
    width g' = w /\ height g' = h /\ _dirty g' = _dirty (game_map s) /\ wf_map g' /\
    forall x' y', get_tile g' x' y' =
      if (y0 <=? y') && (y' <? h) && (0 <=? x') && (x' <? w) then
        Some (if (x' =? 0) || (y' =? 0) || (x' =? w - 1) || (y' =? h - 1) then WALL
              else random_terrain (rand s (Nat.add (rand_pos s)
                     (Z.to_nat ((y' - Z.max 1 y0) * (w - 2) + (x' - 1))))))
      else get_tile (game_map s) x' y'.
Proof.
  revert s y0. induction n as [|n IH]; intros s y0 Hwf Hw Hh Hw1 Hy0 Hn.
  - exists (game_map s). split.
    + cbn [py_range_from for_Z]. unfold ret.
      replace (Z.to_nat (h - 1 - Z.max 1 y0)) with O by lia.
      rewrite Nat.add_0_r. destruct s; reflexivity.
    + split; [exact Hw|split; [exact Hh|split; [reflexivity|split; [exact Hwf|]]]].
      intros x' y'. destruct ((y0 <=? y') && (y' <? h) && (0 <=? x') && (x' <? w)) eqn:E;
        [zbool; lia|reflexivity].
  - cbn [py_range_from for_Z].
    destruct (gen_row s w h y0 Hwf Hw Hh Hw1 ltac:(lia))
      as (g1 & E1 & Hw1' & Hh1 & Hd1 & Hwf1 & Ht1).
    rewrite (bind_ok _ _ _ _ _ E1).
    destruct (IH (GS_with s (heap s) (entities s) (pending_entities s) g1
              (camera_x s) (camera_y s) (next_id s)
              (Nat.add (rand_pos s) (if (y0 =? 0) || (y0 =? h - 1) then O else Z.to_nat (w - 2)))
              (log s)) (y0 + 1))
      as (g' & E' & Hw' & Hh' & Hd' & Hwf' & Ht'); [cbn; try lia; try assumption ..|].
    exists g'. split; [|split; [exact Hw'|split; [exact Hh'|split; [cbn in Hd'; congruence|split; [exact Hwf'|]]]]].
    + rewrite E'. cbn. unfold GS_with. do 3 f_equal.
      destruct ((y0 =? 0) || (y0 =? h - 1)) eqn:Ey; zbool.
      * subst. change (Z.max 1 (0 + 1)) with 1. change (Z.max 1 0) with 1. lia.
      * replace (Z.to_nat (h - 1 - Z.max 1 (y0 + 1))) with O by lia.
        replace (Z.to_nat (h - 1 - Z.max 1 y0)) with O by lia. lia.
      * rewrite (Z.max_r 1 y0), (Z.max_r 1 (y0 + 1)) by lia.
        replace (Z.to_nat (h - 1 - y0)) with (S (Z.to_nat (h - 1 - (y0 + 1)))) by lia.
        rewrite Nat.mul_succ_l. lia.
    + intros x' y'. rewrite Ht'. cbn [game_map GS_with rand rand_pos].
      rewrite Ht1.
      repeat match goal with
             | |- context [if ?c then _ else _] => destruct c eqn:?
             end;
      zbool; try reflexivity; try lia.
      all: do 3 f_equal.
      all: destruct (Z.eq_dec y0 0) as [Hz|Hy00];
        [rewrite Hz in *; change (Z.max 1 (0 + 1)) with 1; change (Z.max 1 0) with 1
        |rewrite ?(Z.max_r 1 y0), ?(Z.max_r 1 (y0 + 1)) by lia].
      all: try lia.
      all: assert ((y' - y0) * (w - 2) = (y' - (y0 + 1)) * (w - 2) + (w - 2)) by ring.
      all: try lia.
      all: assert (0 <= (y' - (y0 + 1)) * (w - 2)) by (apply Z.mul_nonneg_nonneg; lia).
      all: lia.
Qed.

Lemma road_row (s : GameState) (a my : Z) (n : nat) (k : TileType) :
  wf_map (game_map s) ->
  ((0 < n)%nat -> 0 <= a /\ a + Z.of_nat n <= width (game_map s) /\
                  0 <= my < height (game_map s)) ->
  exists g', for_Z (py_range_from a n) (fun x => store_tile x my k) s =
    Some (tt, GS_with s (heap s) (entities s) (pending_entities s) g'
      (camera_x s) (camera_y s) (next_id s) (rand_pos s) (log s)) /\
    width g' = width (game_map s) /\ height g' = height (game_map s) /\
    _dirty g' = _dirty (game_map s) /\ wf_map g' /\
    forall x' y', get_tile g' x' y' =
      if (y' =? my) && (a <=? x') && (x' <? a + Z.of_nat n) then Some k
      else get_tile (game_map s) x' y'.
Proof.
  revert s a. induction n as [|n IH]; intros s a Hwf Hr.
  - exists (game_map s). split; [destruct s; reflexivity|].
    split; [reflexivity|split; [reflexivity|split; [reflexivity|split; [exact Hwf|]]]].
    intros x' y'. destruct ((y' =? my) && (a <=? x') && (x' <? a + Z.of_nat 0)) eqn:E;
      [zbool; lia|reflexivity].
  - destruct (Hr ltac:(lia)) as (Ha & Han & Hmy).
    cbn [py_range_from for_Z].
    assert (Hb : in_bounds (game_map s) a my = true) by (apply in_bounds_true; lia).
    destruct (store_tile_in s a my k Hwf Hb) as (g1 & E1 & Hw1 & Hh1 & Hd1 & Hwf1 & Ht1).
    rewrite (bind_ok _ _ _ _ _ E1).
    destruct (IH (GS_with s (heap s) (entities s) (pending_entities s) g1
                (camera_x s) (camera_y s) (next_id s) (rand_pos s) (log s)) (a + 1))
      as (g' & E' & Hw' & Hh' & Hd' & Hwf' & Ht');
      [exact Hwf1 | cbn; intros; lia |].
    exists g'. rewrite E'. cbn in Hw', Hh', Hd'.
    split; [reflexivity|].
    split; [congruence|split; [congruence|split; [congruence|split; [exact Hwf'|]]]].
    intros x' y'. rewrite Ht'. cbn [game_map GS_with]. rewrite Ht1.
    cells_tac.
Qed.

Lemma road_col (s : GameState) (a mx : Z) (n : nat) (k : TileType) :
  wf_map (game_map s) ->
  ((0 < n)%nat -> 0 <= a /\ a + Z.of_nat n <= height (game_map s) /\
                  0 <= mx < width (game_map s)) ->
  exists g', for_Z (py_range_from a n) (fun y => store_tile mx y k) s =
    Some (tt, GS_with s (heap s) (entities s) (pending_entities s) g'
      (camera_x s) (camera_y s) (next_id s) (rand_pos s) (log s)) /\
    width g' = width (game_map s) /\ height g' = height (game_map s) /\
    _dirty g' = _dirty (game_map s) /\ wf_map g' /\
    forall x' y', get_tile g' x' y' =
      if (x' =? mx) && (a <=? y') && (y' <? a + Z.of_nat n) then Some k
      else get_tile (game_map s) x' y'.
Proof.
  revert s a. induction n as [|n IH]; intros s a Hwf Hr.
  - exists (game_map s). split; [destruct s; reflexivity|].
    split; [reflexivity|split; [reflexivity|split; [reflexivity|split; [exact Hwf|]]]].
    intros x' y'. destruct ((x' =? mx) && (a <=? y') && (y' <? a + Z.of_nat 0)) eqn:E;
      [zbool; lia|reflexivity].
  - destruct (Hr ltac:(lia)) as (Ha & Han & Hmx).
    cbn [py_range_from for_Z].
    assert (Hb : in_bounds (game_map s) mx a = true) by (apply in_bounds_true; lia).
    destruct (store_tile_in s mx a k Hwf Hb) as (g1 & E1 & Hw1 & Hh1 & Hd1 & Hwf1 & Ht1).
    rewrite (bind_ok _ _ _ _ _ E1).
    destruct (IH (GS_with s (heap s) (entities s) (pending_entities s) g1
                (camera_x s) (camera_y s) (next_id s) (rand_pos s) (log s)) (a + 1))
      as (g' & E' & Hw' & Hh' & Hd' & Hwf' & Ht');
      [exact Hwf1 | cbn; intros; lia |].
    exists g'. rewrite E'. cbn in Hw', Hh', Hd'.
    split; [reflexivity|].
    split; [congruence|split; [congruence|split; [congruence|split; [exact Hwf'|]]]].
    intros x' y'. rewrite Ht'. cbn [game_map GS_with]. rewrite Ht1.
    cells_tac.
Qed.

Lemma generate_random_run (s : GameState) (w h : Z) :
  wf_map (game_map s) -> width (game_map s) = w -> height (game_map s) = h ->
  1 <= w -> 1 <= h ->
  exists g', generate_random s =
    Some (tt, GS_with s (heap s) (entities s) (pending_entities s) g'
      (camera_x s) (camera_y s) (next_id s)
      (Nat.add (rand_pos s) (Z.to_nat (h - 2) * Z.to_nat (w - 2))) (log s)) /\
    width g' = w /\ height g' = h /\ _dirty g' = true /\ wf_map g' /\
    forall x y, 0 <= x < w -> 0 <= y < h ->
      get_tile g' x y =
      Some (if ((y =? h / 2) && (5 <=? x) && (x <? w - 5)) ||
               ((x =? w / 2) && (5 <=? y) && (y <? h - 5)) then ROAD
            else if (x =? 0) || (y =? 0) || (x =? w - 1) || (y =? h - 1) then WALL
            else random_terrain (rand s (Nat.add (rand_pos s)
                   (Z.to_nat ((y - 1) * (w - 2) + (x - 1)))))).
Proof.
  intros Hwf Hw Hh Hw1 Hh1.
  set (n1 := Z.to_nat (w - 5 - 5)). set (n2 := Z.to_nat (h - 5 - 5)).
  assert (Hmy : 0 <= h / 2 < h) by (split; [apply Z.div_pos | apply Z.div_lt]; lia).
  assert (Hmx : 0 <= w / 2 < w) by (split; [apply Z.div_pos | apply Z.div_lt]; lia).
  destruct (gen_rows_from s w h 0 (Z.to_nat (h - 0)) Hwf Hw Hh Hw1 ltac:(lia) ltac:(lia))
    as (g1 & E1 & Hw1' & Hh1' & Hd1 & Hwf1 & Ht1).
  change (Z.max 1 0) with 1 in E1, Ht1.
  destruct (road_row (GS_with s (heap s) (entities s) (pending_entities s) g1
              (camera_x s) (camera_y s) (next_id s)
              (Nat.add (rand_pos s) (Z.to_nat (h - 1 - 1) * Z.to_nat (w - 2))) (log s))
              5 (h / 2) n1 ROAD Hwf1)
    as (g2 & E2 & Hw2 & Hh2 & Hd2 & Hwf2 & Ht2).
  { cbn. intros Hn. unfold n1 in *. lia. }
  cbn [game_map GS_with] in Hw2, Hh2, Hd2, Ht2.
  destruct (road_col (GS_with (GS_with s (heap s) (entities s) (pending_entities s) g1
              (camera_x s) (camera_y s) (next_id s)
              (Nat.add (rand_pos s) (Z.to_nat (h - 1 - 1) * Z.to_nat (w - 2))) (log s))
              (heap s) (entities s) (pending_entities s) g2
              (camera_x s) (camera_y s) (next_id s)
              (Nat.add (rand_pos s) (Z.to_nat (h - 1 - 1) * Z.to_nat (w - 2))) (log s))
              5 (w / 2) n2 ROAD Hwf2)
    as (g3 & E3 & Hw3 & Hh3 & Hd3 & Hwf3 & Ht3).
  { cbn. intros Hn. unfold n2 in *. lia. }
  cbn [game_map GS_with] in Hw3, Hh3, Hd3, Ht3.
  exists {| width := width g3; height := height g3; tiles := tiles g3; _dirty := true |}.
  split; [|split; [cbn; congruence|split; [cbn; congruence|split; [reflexivity|split; [exact Hwf3|]]]]].
  - unfold generate_random.
    rewrite (bind_ok (gets game_map) _ s s (game_map s) eq_refl).
    cbv beta zeta. rewrite Hw, Hh.
    change (py_range 0 h) with (py_range_from 0 (Z.to_nat (h - 0))).
    rewrite (bind_ok _ _ _ _ _ E1).
    change (py_range 5 (w - 5)) with (py_range_from 5 n1).
    rewrite (bind_ok _ _ _ _ _ E2).
    change (py_range 5 (h - 5)) with (py_range_from 5 n2).
    rewrite (bind_ok _ _ _ _ _ E3).
    replace (h - 1 - 1) with (h - 2) by lia.
    reflexivity.
  - intros x y Hx Hy.
    change (get_tile {| width := width g3; height := height g3; tiles := tiles g3;
                        _dirty := true |} x y) with (get_tile g3 x y).
    rewrite Ht3, Ht2, Ht1. unfold n1, n2.
    repeat match goal with
           | |- context [if ?c then _ else _] => destruct c eqn:?
           end;
    zbool; try reflexivity; try lia.
Qed.

Lemma bind_None {A B} (m : M A) (k : A -> M B) (s : GameState) :
  m s = None -> bindM m k s = None.
Proof. unfold bindM. intros ->. reflexivity. Qed.

Lemma py_range_empty (a b : Z) : b <= a -> py_range a b = [].
Proof. intros H. unfold py_range. replace (Z.to_nat (b - a)) with O by lia. reflexivity. Qed.

Lemma py_range_cons (a b : Z) : a < b -> py_range a b = a :: py_range (a + 1) b.
Proof.
  intros H. unfold py_range.
  replace (Z.to_nat (b - a)) with (S (Z.to_nat (b - (a + 1)))) by lia. reflexivity.
Qed.

Lemma for_Z_ret (xs : list Z) (s : GameState) : for_Z xs (fun _ => ret tt) s = Some (tt, s).
Proof.
  induction xs as [|x xs IH]; [reflexivity|].
  cbn [for_Z]. rewrite (bind_ok (ret tt) _ s s tt eq_refl). exact IH.
Qed.

Lemma py_index_nil (i : Z) : py_index 0 i = None.
Proof.
  unfold py_index. destruct ((0 <=? _) && (_ <? Z.of_nat 0)) eqn:E; [|reflexivity].
  zbool; lia.
Qed.

Lemma generate_random_none_aux (s : GameState) :
  wf_map (game_map s) ->
  (generate_random s = None <->
   (height (game_map s) <= 0 /\ 11 <= width (game_map s)) \/
   (width (game_map s) <= 0 /\ 11 <= height (game_map s))).
Proof.
  intros Hwf.
  destruct (Z_lt_le_dec 0 (width (game_map s))) as [Hw|Hw];
  destruct (Z_lt_le_dec 0 (height (game_map s))) as [Hh|Hh].
  - destruct (generate_random_run s _ _ Hwf eq_refl eq_refl ltac:(lia) ltac:(lia))
      as (g' & E & _). rewrite E. split; [discriminate|lia].
  - unfold generate_random.
    rewrite (bind_ok (gets game_map) _ s s (game_map s) eq_refl). cbv beta zeta.
    rewrite (py_range_empty 0 (height (game_map s))) by lia.
    rewrite (bind_ok (for_Z [] _) _ s s tt eq_refl).
    destruct (Z_lt_le_dec 10 (width (game_map s))) as [Hw2|Hw2].
    + rewrite (py_range_cons 5 (width (game_map s) - 5)) by lia.
      cbn [for_Z].
      assert (Hst : store_tile 5 (height (game_map s) / 2) ROAD s = None).
      { unfold store_tile, bindM, gets, lift.
        destruct Hwf as [Hl _].
        destruct (tiles (game_map s)) as [|row ts]; [|cbn in Hl; lia].
        unfold tiles_setitem. rewrite py_index_nil. reflexivity. }
      rewrite (bind_None _ _ _ (bind_None _ _ _ Hst)).
      split; [intros _; lia|reflexivity].
    + rewrite (py_range_empty 5 (width (game_map s) - 5)) by lia.
      rewrite (py_range_empty 5 (height (game_map s) - 5)) by lia.
      cbv [for_Z bindM ret gets set_map modify].
      split; [discriminate|lia].
  - unfold generate_random.
    rewrite (bind_ok (gets game_map) _ s s (game_map s) eq_refl). cbv beta zeta.
    rewrite (py_range_empty 0 (width (game_map s))) by lia.
    rewrite (bind_ok (for_Z (py_range 0 (height (game_map s)))
               (fun y => for_Z [] (fun x => generate_cell (width (game_map s))
                                              (height (game_map s)) x y)))
               _ s s tt (for_Z_ret _ s)).
    rewrite (py_range_empty 5 (width (game_map s) - 5)) by lia.
    rewrite (bind_ok (for_Z [] _) _ s s tt eq_refl).
    destruct (Z_lt_le_dec 10 (height (game_map s))) as [Hh2|Hh2].
    + rewrite (py_range_cons 5 (height (game_map s) - 5)) by lia.
      cbn [for_Z].
      assert (Hst : store_tile (width (game_map s) / 2) 5 ROAD s = None).
      { unfold store_tile, bindM, gets, lift.
        destruct Hwf as [Hl Hrows].
        destruct (lookup_lt_is_Some_2 (tiles (game_map s)) 5) as [row Hr]; [lia|].
        pose proof (Forall_lookup_1 _ _ _ _ Hrows Hr) as Hrl. cbv beta in Hrl.
        unfold tiles_setitem. rewrite (py_index_in (length (tiles (game_map s))) 5) by lia.
        cbn [mbind option_bind]. change (Z.to_nat 5) with 5%nat. rewrite Hr. cbn [mbind option_bind].
        replace (length row) with O by lia. rewrite py_index_nil. reflexivity. }
      rewrite (bind_None _ _ _ (bind_None _ _ _ Hst)).
      split; [intros _; lia|reflexivity].
    + rewrite (py_range_empty 5 (height (game_map s) - 5)) by lia.
      cbv [for_Z bindM ret gets set_map modify].
      split; [discriminate|lia].
  - unfold generate_random.
    rewrite (bind_ok (gets game_map) _ s s (game_map s) eq_refl). cbv beta zeta.
    rewrite (py_range_empty 0 (height (game_map s))) by lia.
    rewrite (py_range_empty 5 (width (game_map s) - 5)) by lia.
    rewrite (py_range_empty 5 (height (game_map s) - 5)) by lia.
    cbv [for_Z bindM ret gets set_map modify].
    split; [discriminate|lia].
Qed.

(* ================================================================= *)
(** ** Game set-up and key handling *)

Lemma lookup_snoc {A} (l : list A) (x : A) : (l ++ [x]) !! length l = Some x.
Proof. rewrite lookup_app_r by lia. rewrite Nat.sub_diag. reflexivity. Qed.

Lemma insert_snoc {A} (l : list A) (x y : A) : <[length l := y]> (l ++ [x]) = l ++ [y].
Proof.
  rewrite <- (Nat.add_0_r (length l)) at 1. rewrite insert_app_r. reflexivity.
Qed.

Ltac gs_norm :=
  unfold GS_with; cbn [heap entities pending_entities game_map player camera_x camera_y paused
       game_over score next_id rand rand_pos log GS_with].

Lemma new_tank_run (x0 y0 : float) (t : Team) (s : GameState) :
  new_tank x0 y0 t s =
  Some (length (heap s),
        GS_with s (heap s ++ [ETank (fst (Tank.new (next_id s) x0 y0 t))]) (entities s)
          (pending_entities s) (game_map s) (camera_x s) (camera_y s) (next_id s + 1)
          (rand_pos s) (log s)).
Proof. reflexivity. Qed.

Lemma new_base_run (x0 y0 : float) (t : Team) (s : GameState) :
  new_base x0 y0 t s =
  Some (length (heap s),
        GS_with s (heap s ++ [EBase (fst (Base.new (next_id s) x0 y0 t))]) (entities s)
          (pending_entities s) (game_map s) (camera_x s) (camera_y s) (next_id s + 1)
          (rand_pos s) (log s)).
Proof. reflexivity. Qed.

Lemma enemy_run (i : Z) (s : GameState) :
  (enemy <-- new_tank (float_of_Z (Config.MAP_WIDTH * Config.TILE_SIZE * 3 / 4))
              (float_of_Z (Config.MAP_HEIGHT * Config.TILE_SIZE / 4 + i * 100)) TEAM_2 ;;
   e <-- load enemy ;;
   match e with
   | ETank tk => store enemy (ETank (set_tank_angle tk 180))
   | _ => lift None
   end ;;;
   extend_entities [enemy]) s =
  Some (tt, GS_with s
    (heap s ++ [ETank (set_tank_angle (fst (Tank.new (next_id s)
        (float_of_Z (Config.MAP_WIDTH * Config.TILE_SIZE * 3 / 4))
        (float_of_Z (Config.MAP_HEIGHT * Config.TILE_SIZE / 4 + i * 100)) TEAM_2)) 180)])
    (entities s ++ [length (heap s)]) (pending_entities s) (game_map s)
    (camera_x s) (camera_y s) (next_id s + 1) (rand_pos s) (log s)).
Proof.
  rewrite (bind_ok _ _ _ _ _ (new_tank_run _ _ _ _)).
  unfold load, lift, bindM at 1. gs_norm. rewrite lookup_snoc.
  unfold bindM, store, modify, extend_entities, gets, set_entities. gs_norm.
  rewrite insert_snoc. reflexivity.
Qed.

Lemma pill_run (i : Z) (s : GameState) :
  (pill <-- new_pillbox (float_of_Z (150 + i * 200))
                        (float_of_Z (Config.MAP_HEIGHT * Config.TILE_SIZE - 150)) NEUTRAL ;;
   extend_entities [pill]) s =
  Some (tt, GS_with s
    (heap s ++ [EPillbox (fst (Pillbox.new (next_id s) (float_of_Z (150 + i * 200))
                  (float_of_Z (Config.MAP_HEIGHT * Config.TILE_SIZE - 150)) NEUTRAL))])
    (entities s ++ [length (heap s)]) (pending_entities s) (game_map s)
    (camera_x s) (camera_y s) (next_id s + 1) (rand_pos s) (log s)).
Proof. reflexivity. Qed.

Lemma set_player_run (p : option nat) (s : GameState) :
  set_player p s =
  Some (tt, {| heap := heap s; entities := entities s;
       pending_entities := pending_entities s; game_map := game_map s;
       player := p; camera_x := camera_x s; camera_y := camera_y s;
       paused := paused s; game_over := game_over s; score := score s;
       next_id := next_id s; rand := rand s; rand_pos := rand_pos s;
       log := log s |}).
Proof. reflexivity. Qed.

Lemma extend_run (xs : list nat) (s : GameState) :
  extend_entities xs s =
  Some (tt, GS_with s (heap s) (entities s ++ xs) (pending_entities s) (game_map s)
              (camera_x s) (camera_y s) (next_id s) (rand_pos s) (log s)).
Proof. reflexivity. Qed.

Lemma bind_ok2 {A B C} (m : M A) (k1 : A -> M B) (k2 : B -> M C)
    (s s1 : GameState) (a : A) :
  m s = Some (a, s1) -> bindM (bindM m k1) k2 s = bindM (k1 a) k2 s1.
Proof. unfold bindM. intros ->. reflexivity. Qed.

Lemma setup_game_run (s s1 : GameState) :
  generate_random s = Some (tt, s1) ->
  exists new, _setup_game s =
    Some (tt, {| heap := heap s1 ++ new;
                 entities := entities s1 ++ seq (length (heap s1)) 11;
                 pending_entities := pending_entities s1; game_map := game_map s1;
                 player := Some (length (heap s1));
                 camera_x := camera_x s1; camera_y := camera_y s1;
                 paused := paused s1; game_over := game_over s1; score := score s1;
                 next_id := next_id s1 + 11; rand := rand s1;
                 rand_pos := rand_pos s1; log := log s1 |}) /\
    map entity_kind new =
      [KTank; KTank; KTank; KTank; KBase; KBase; KBase;
       KPillbox; KPillbox; KPillbox; KPillbox] /\
    map entity_team new =
      [TEAM_1; TEAM_2; TEAM_2; TEAM_2; TEAM_1; TEAM_2; NEUTRAL;
       NEUTRAL; NEUTRAL; NEUTRAL; NEUTRAL] /\
    map entity_alive new = repeat true 11 /\
    map entity_id new = map (fun i => next_id s1 + Z.of_nat i) (seq 0 11).
Proof.
  intros E. unfold _setup_game. rewrite (bind_ok _ _ _ _ _ E).
  rewrite (bind_ok _ _ _ _ _ (new_tank_run _ _ _ _)). cbv beta.
  rewrite (bind_ok _ _ _ _ _ (set_player_run _ _)).
  rewrite (bind_ok _ _ _ _ _ (extend_run _ _)).
  change (py_range 0 3) with [0; 1; 2]. change (py_range 0 4) with [0; 1; 2; 3].
  cbn [for_Z].
  rewrite (bind_ok2 _ _ _ _ _ _ (enemy_run 0 _)). gs_norm.
  rewrite (bind_ok2 _ _ _ _ _ _ (enemy_run 1 _)). gs_norm.
  rewrite (bind_ok2 _ _ _ _ _ _ (enemy_run 2 _)). gs_norm.
  rewrite (bind_ok (ret tt) _ _ _ tt eq_refl).
  rewrite (bind_ok _ _ _ _ _ (new_base_run _ _ _ _)). cbv beta. gs_norm.
  rewrite (bind_ok _ _ _ _ _ (new_base_run _ _ _ _)). cbv beta. gs_norm.
  rewrite (bind_ok _ _ _ _ _ (new_base_run _ _ _ _)). cbv beta. gs_norm.
  rewrite (bind_ok _ _ _ _ _ (extend_run _ _)). gs_norm.
  rewrite (bind_ok _ _ _ _ _ (pill_run 0 _)). gs_norm.
  rewrite (bind_ok _ _ _ _ _ (pill_run 1 _)). gs_norm.
  rewrite (bind_ok _ _ _ _ _ (pill_run 2 _)). gs_norm.
  rewrite (bind_ok _ _ _ _ _ (pill_run 3 _)). gs_norm.
  unfold ret.
  eexists. split.
  { do 2 f_equal. f_equal.
    - rewrite <- !app_assoc. reflexivity.
    - rewrite <- !app_assoc. f_equal. rewrite !length_app. cbn [seq length app].
      repeat (apply (f_equal2 cons); [lia|]). reflexivity.
    - lia. }
  split; [reflexivity|]. split; [reflexivity|]. split; [reflexivity|].
  cbn. repeat (apply (f_equal2 cons); [lia|]). reflexivity.
Qed.

(** X15: on a well-formed map of positive width [w] and height [h],
    [generate_random] succeeds, draws [random.random()] exactly
    [(w - 2) * (h - 2)] times, keeps the size, marks the map dirty and
    leaves every other part of the game state as it is; a cell on a road
    (row [h / 2] from column 5 to [w - 6], or column [w / 2] from row 5
    to [h - 6]) is ROAD, any other border cell is WALL, and an inner cell
    [(x, y)] takes the terrain of the draw number
    [(y - 1) * (w - 2) + (x - 1)] in row-major order. *)
Theorem generate_random_layout (s : GameState) (w h : Z) :
  wf_map (game_map s) -> width (game_map s) = w -> height (game_map s) = h ->
  1 <= w -> 1 <= h ->
  exists g', generate_random s =
    Some (tt, GS_with s (heap s) (entities s) (pending_entities s) g'
      (camera_x s) (camera_y s) (next_id s)
      (Nat.add (rand_pos s) (Z.to_nat (h - 2) * Z.to_nat (w - 2))) (log s)) /\
    width g' = w /\ height g' = h /\ _dirty g' = true /\ wf_map g' /\
    forall x y, 0 <= x < w -> 0 <= y < h ->
      get_tile g' x y =
      Some (if ((y =? h / 2) && (5 <=? x) && (x <? w - 5)) ||
               ((x =? w / 2) && (5 <=? y) && (y <? h - 5)) then ROAD
            else if (x =? 0) || (y =? 0) || (x =? w - 1) || (y =? h - 1) then WALL
            else random_terrain (rand s (Nat.add (rand_pos s)
                   (Z.to_nat ((y - 1) * (w - 2) + (x - 1)))))).
Proof. exact (generate_random_run s w h). Qed.

(** X16: on a well-formed map, [generate_random] raises an [IndexError]
    exactly when the map has no rows but is at least 11 columns wide (the
    road row [tiles[h // 2]] does not exist), or has no columns but at
    least 11 rows (the road column does not exist in row 5). *)
Theorem generate_random_none (s : GameState) :
  wf_map (game_map s) ->
  (generate_random s = None <->
   (height (game_map s) <= 0 /\ 11 <= width (game_map s)) \/
   (width (game_map s) <= 0 /\ 11 <= height (game_map s))).
Proof. exact (generate_random_none_aux s). Qed.

(** X17: on a well-formed map of positive size, [_setup_game] succeeds:
    it first generates the map, then creates eleven live objects in this
    order: the player tank (team 1), three team-2 tanks, a team-1, a
    team-2 and a neutral base, and four neutral pillboxes. They get the
    next eleven ids and are appended straight to [entities], not to the
    pending buffer. The player is the first of them, and no existing
    object is changed. *)
Theorem setup_game_spawns (s : GameState) :
  wf_map (game_map s) -> 1 <= width (game_map s) -> 1 <= height (game_map s) ->
  exists s1 s', generate_random s = Some (tt, s1) /\ _setup_game s = Some (tt, s') /\
    game_map s' = game_map s1 /\
    player s' = Some (length (heap s)) /\
    entities s' = entities s ++ seq (length (heap s)) 11 /\
    pending_entities s' = pending_entities s /\
    next_id s' = next_id s + 11 /\
    take (length (heap s)) (heap s') = heap s /\
    length (heap s') = (length (heap s) + 11)%nat /\
    map entity_kind (drop (length (heap s)) (heap s')) =
      [KTank; KTank; KTank; KTank; KBase; KBase; KBase;
       KPillbox; KPillbox; KPillbox; KPillbox] /\
    map entity_team (drop (length (heap s)) (heap s')) =
      [TEAM_1; TEAM_2; TEAM_2; TEAM_2; TEAM_1; TEAM_2; NEUTRAL;
       NEUTRAL; NEUTRAL; NEUTRAL; NEUTRAL] /\
    map entity_alive (drop (length (heap s)) (heap s')) = repeat true 11 /\
    map entity_id (drop (length (heap s)) (heap s')) =
      map (fun i => next_id s + Z.of_nat i) (seq 0 11) /\
    paused s' = paused s /\ game_over s' = game_over s /\ score s' = score s.
Proof.
  intros Hwf Hw Hh.
  destruct (generate_random_run s _ _ Hwf eq_refl eq_refl Hw Hh) as (g' & E & _).
  destruct (setup_game_run s _ E) as (new & E2 & Hk & Ht & Ha & Hi).
  eexists _, _. split; [exact E|]. split; [exact E2|].
  cbn. rewrite take_app_length, drop_app_length, length_app.
  assert (Hl : length new = 11%nat) by (rewrite <- (length_map entity_kind), Hk; reflexivity).
  repeat split; auto; lia.
Qed.

Section KeyExtra.
Context {LM : Libm}.




End KeyExtra.

Section KeyFire.
Context {LM : Libm}.

Lemma GS_with_self (s : GameState) :
  GS_with s (heap s) (entities s) (pending_entities s) (game_map s)
    (camera_x s) (camera_y s) (next_id s) (rand_pos s) (log s) = s.
Proof. destruct s; reflexivity. Qed.

(** X21: SPACE with a live player tank.  If the tank cannot fire (its
    cooldown is running or it has no shells) the state is unchanged.
    Otherwise the tank object is replaced in place (one shell less, the
    cooldown set to its fire rate), the new shell is put in a fresh heap
    cell and only into the pending buffer (not into the live entities),
    it carries the next id, the tank's team and the tank's id as owner,
    and the id counter moves on by one; nothing else changes. *)
Theorem handle_keydown_space (s : GameState) (pa : nat) (tk : Tank.t) :
  player s = Some pa -> heap s !! pa = Some (ETank tk) -> Tank.alive tk = true ->
  if (0 <? Tank.fire_cooldown tk) || (Resources.shells (Tank.resources tk) <=? 0)
  then _handle_keydown K_SPACE s = Some (tt, s)
  else exists sh tk',
    _handle_keydown K_SPACE s =
      Some (tt, GS_with s (<[pa := ETank tk']> (heap s) ++ [EShell sh]) (entities s)
                  (pending_entities s ++ [length (heap s)]) (game_map s)
                  (camera_x s) (camera_y s) (next_id s + 1) (rand_pos s) (log s)) /\
    Resources.shells (Tank.resources tk') = Resources.shells (Tank.resources tk) - 1 /\
    Tank.fire_cooldown tk' = Tank.fire_rate tk /\ Tank.alive tk' = true /\
    Shell.id sh = next_id s /\ Shell.team sh = Tank.team tk /\
    Shell.owner_id sh = Tank.id tk /\ Shell.alive sh = true.
Proof.
  intros Hp He Ha.
  assert (Hl : load pa s = Some (ETank tk, s)) by (unfold load, lift; rewrite He; reflexivity).
  unfold _handle_keydown.
  rewrite (bind_ok (gets player) _ s s (player s) eq_refl), Hp.
  rewrite (bind_ok (load pa) _ s s _ Hl). cbn [entity_alive]. rewrite Ha. cbn [negb].
  rewrite (bind_ok (gets next_id) _ s s (next_id s) eq_refl).
  unfold Tank.fire.
  destruct ((0 <? Tank.fire_cooldown tk) || (Resources.shells (Tank.resources tk) <=? 0)).
  - cbv [bindM store modify set_next_id ret].
    rewrite (list_insert_id (heap s) pa (ETank tk) He).
    cbn. destruct s; reflexivity.
  - cbv beta iota zeta delta [Shell.new bindM store modify set_next_id alloc add_entity ret].
    unfold GS_with.
    cbn [heap entities pending_entities game_map player camera_x camera_y paused
         game_over score next_id rand rand_pos log].
    rewrite length_insert.
    do 2 eexists. split; [reflexivity|]. cbn. repeat split; assumption.
Qed.

(** X22: M with a live player tank.  With no mines left the state is
    unchanged.  Otherwise the tank object is replaced in place with one
    mine less, a visible mine of the tank's team is put at the tank's
    position in a fresh heap cell and only into the pending buffer, it
    carries the next id, and the id counter moves on by one. *)
Theorem handle_keydown_mine (s : GameState) (pa : nat) (tk : Tank.t) :
  player s = Some pa -> heap s !! pa = Some (ETank tk) -> Tank.alive tk = true ->
  if Resources.mines (Tank.resources tk) <=? 0
  then _handle_keydown K_m s = Some (tt, s)
  else exists mn tk',
    _handle_keydown K_m s =
      Some (tt, GS_with s (<[pa := ETank tk']> (heap s) ++ [EMine mn]) (entities s)
                  (pending_entities s ++ [length (heap s)]) (game_map s)
                  (camera_x s) (camera_y s) (next_id s + 1) (rand_pos s) (log s)) /\
    Resources.mines (Tank.resources tk') = Resources.mines (Tank.resources tk) - 1 /\
    Resources.shells (Tank.resources tk') = Resources.shells (Tank.resources tk) /\
    Tank.alive tk' = true /\
    Mine.id mn = next_id s /\ Mine.team mn = Tank.team tk /\
    Mine.x mn = Tank.x tk /\ Mine.y mn = Tank.y tk /\
    Mine.hidden mn = false /\ Mine.alive mn = true.
Proof.
  intros Hp He Ha.
  assert (Hl : load pa s = Some (ETank tk, s)) by (unfold load, lift; rewrite He; reflexivity).
  unfold _handle_keydown.
  rewrite (bind_ok (gets player) _ s s (player s) eq_refl), Hp.
  rewrite (bind_ok (load pa) _ s s _ Hl). cbn [entity_alive]. rewrite Ha. cbn [negb].
  rewrite (bind_ok (gets next_id) _ s s (next_id s) eq_refl).
  unfold Tank.place_mine.
  destruct (Resources.mines (Tank.resources tk) <=? 0).
  - cbv [bindM store modify set_next_id ret].
    rewrite (list_insert_id (heap s) pa (ETank tk) He).
    cbn. destruct s; reflexivity.
  - cbv beta iota zeta delta [Mine.new bindM store modify set_next_id alloc add_entity ret].
    unfold GS_with.
    cbn [heap entities pending_entities game_map player camera_x camera_y paused
         game_over score next_id rand rand_pos log].
    rewrite length_insert.
    do 2 eexists. split; [reflexivity|]. cbn. repeat split; assumption.
Qed.

End KeyFire.

Lemma generate_random_layout_witness :
  exists s', generate_random (state_of [] [] 1) = Some (tt, s') /\
    get_tile (game_map s') 0 5 = Some WALL /\ get_tile (game_map s') 10 24 = Some ROAD /\
    get_tile (game_map s') 3 3 = Some GRASS.
Proof.
  destruct (generate_random_layout (state_of [] [] 1) 64 48 (new_GameMap_wf _ _)
              eq_refl eq_refl ltac:(lia) ltac:(lia)) as (g' & E & _ & _ & _ & _ & Hc).
  eexists. split; [exact E|]. unfold GS_with. cbn [game_map].
  rewrite !Hc by lia. vm_compute. repeat split.
Defined.

Lemma generate_random_none_witness :
  generate_random (GS_with (state_of [] [] 1) [] [] [] (new_GameMap 20 0) 0 0 1 0 []) = None.
Proof.
  apply (proj2 (generate_random_none
    (GS_with (state_of [] [] 1) [] [] [] (new_GameMap 20 0) 0 0 1 0 []) (new_GameMap_wf 20 0))).
  left. split; vm_compute; discriminate.
Defined.

Lemma setup_game_spawns_witness :
  exists s', _setup_game (state_of [] [] 1) = Some (tt, s') /\
    player s' = Some 0%nat /\ entities s' = seq 0 11 /\ next_id s' = 12.
Proof.
  destruct (setup_game_spawns (state_of [] [] 1) (new_GameMap_wf _ _)
              ltac:(vm_compute; discriminate) ltac:(vm_compute; discriminate))
    as (s1 & s' & _ & E & _ & Hp & He & _ & Hn & _).
  exists s'. split; [exact E|]. rewrite Hp, He, Hn. repeat split.
Defined.


Lemma handle_keydown_space_witness :
  exists s', _handle_keydown (LM := approx_libm) K_SPACE player_state = Some (tt, s') /\
    entities s' = [0%nat] /\ pending_entities s' = [1%nat] /\ next_id s' = 2.
Proof.
  pose proof (handle_keydown_space (LM := approx_libm) player_state 0
                (fst (Tank.new 0 100 100 TEAM_1)) eq_refl eq_refl eq_refl) as H.
  rewrite (eq_refl : ((0 <? Tank.fire_cooldown (fst (Tank.new 0 100 100 TEAM_1))) ||
             (Resources.shells (Tank.resources (fst (Tank.new 0 100 100 TEAM_1))) <=? 0))
             = false) in H.
  destruct H as (sh & tk' & E & _).
  eexists. split; [exact E|]. repeat split.
Defined.

Lemma handle_keydown_mine_witness :
  exists s', _handle_keydown (LM := approx_libm) K_m player_state = Some (tt, s') /\
    entities s' = [0%nat] /\ pending_entities s' = [1%nat] /\ next_id s' = 2.
Proof.
  pose proof (handle_keydown_mine (LM := approx_libm) player_state 0
                (fst (Tank.new 0 100 100 TEAM_1)) eq_refl eq_refl eq_refl) as H.
  rewrite (eq_refl : (Resources.mines (Tank.resources (fst (Tank.new 0 100 100 TEAM_1))) <=? 0)
             = false) in H.
  destruct H as (mn & tk' & E & _).
  eexists. split; [exact E|]. repeat split.
Defined.
